(** * NBSP: non-blocking bidirectional small package protocol

    A shallow embedding of the inline functions of [module_nbsp/src/nbsp.h]
    (XC): [nbsp_receive_msg], [nbsp_received_data], [nbsp_uddw_send],
    [nbsp_uddw_handle_ack] and [nbsp_uddw_receive], together with the
    properties of the UDDW variant and of the message parser.

    Conventions.
    - An [unsigned] is a [Z]; additions that the source performs on
      [unsigned] values wrap modulo [2^32] ([u32_add]).
    - A channel end is a pair of queues: what has arrived and has not been
      read yet, and what this end has emitted so far.
    - A reference parameter ([t_nbsp_state&], [unsigned&]) and an array
      parameter are threaded through: the function returns their new value.
    - A call that cannot complete yields [Fail]: the input it waits for has
      not arrived, the item at the head of the channel is of the wrong kind,
      or an array index is outside the array (XC checks array bounds). *)

From Stdlib Require Import ZArith Lia.
From Stdlib.Strings Require Import Byte.
From stdpp Require Import base numbers list.

Local Open Scope Z_scope.

(** ** Results of calls *)

Inductive fault : Type :=
  | Blocked        (* nothing has arrived on the channel *)
  | ProtocolError  (* a word where a control token is expected, or the converse *)
  | ArrayBounds.   (* an array index outside the array *)

Inductive result (A : Type) : Type :=
  | Ok (a : A)
  | Fail (f : fault).

Arguments Ok {A} a.
Arguments Fail {A} f.

#[global] Instance result_ret : MRet result := fun A a => Ok a.

#[global] Instance result_bind : MBind result := fun A B k r =>
  match r with
  | Ok a => k a
  | Fail f => Fail f
  end.

(** ** Unsigned 32-bit arithmetic *)

Definition u32_modulus : Z := 2 ^ 32.

Definition u32_add (a b : Z) : Z := (a + b) mod u32_modulus.

(** ** The state record, [t_nbsp_state] *)

Record t_nbsp_state : Type := mk_state {
  msg_is_ack : Z;
  msg_data : Z;
  words_to_be_acknowledged : Z;
  read_index : Z;
  write_index : Z;
  buffer_mask : Z
}.

Definition set_msg_is_ack (v : Z) (s : t_nbsp_state) : t_nbsp_state :=
  mk_state v (msg_data s) (words_to_be_acknowledged s)
           (read_index s) (write_index s) (buffer_mask s).

Definition set_msg_data (v : Z) (s : t_nbsp_state) : t_nbsp_state :=
  mk_state (msg_is_ack s) v (words_to_be_acknowledged s)
           (read_index s) (write_index s) (buffer_mask s).

Definition set_words_to_be_acknowledged (v : Z) (s : t_nbsp_state)
  : t_nbsp_state :=
  mk_state (msg_is_ack s) (msg_data s) v
           (read_index s) (write_index s) (buffer_mask s).

Definition set_read_index (v : Z) (s : t_nbsp_state) : t_nbsp_state :=
  mk_state (msg_is_ack s) (msg_data s) (words_to_be_acknowledged s)
           v (write_index s) (buffer_mask s).

Definition set_write_index (v : Z) (s : t_nbsp_state) : t_nbsp_state :=
  mk_state (msg_is_ack s) (msg_data s) (words_to_be_acknowledged s)
           (read_index s) v (buffer_mask s).

(** [#define NBSP_CT_DATA 0x5] *)
Definition NBSP_CT_DATA : byte := x05.

(** ** Channel ends

    The four primitives [inct], [inuint], [outuint] and [outct] belong to
    the platform; they are modelled on a channel end that carries control
    tokens and words. *)

Inductive item : Type :=
  | Tok (t : byte)   (* a control token *)
  | Word (w : Z).    (* a 32-bit word *)

Record chanend : Type := mk_chanend {
  incoming : list item;   (* arrived, not yet read; head is next *)
  outgoing : list item    (* emitted so far; last is most recent *)
}.

Definition inct (c : chanend) : result (byte * chanend) :=
  match incoming c with
  | [] => Fail Blocked
  | Tok t :: rest => Ok (t, mk_chanend rest (outgoing c))
  | Word _ :: _ => Fail ProtocolError
  end.

Definition inuint (c : chanend) : result (Z * chanend) :=
  match incoming c with
  | [] => Fail Blocked
  | Word w :: rest => Ok (w, mk_chanend rest (outgoing c))
  | Tok _ :: _ => Fail ProtocolError
  end.

Definition outuint (c : chanend) (w : Z) : chanend :=
  mk_chanend (incoming c) (outgoing c ++ [Word w]).

Definition outct (c : chanend) (t : byte) : chanend :=
  mk_chanend (incoming c) (outgoing c ++ [Tok t]).

(** ** Arrays of [unsigned], with the bounds check of XC *)

Definition array_get (buffer : list Z) (i : Z) : result Z :=
  if decide (0 <= i) then
    match buffer !! Z.to_nat i with
    | Some v => Ok v
    | None => Fail ArrayBounds
    end
  else Fail ArrayBounds.

Definition array_set (buffer : list Z) (i : Z) (v : Z) : result (list Z) :=
  if decide (0 <= i < Z.of_nat (length buffer)) then
    Ok (<[Z.to_nat i := v]> buffer)
  else Fail ArrayBounds.

(** ** Initialisation *)

(** Modelled from the spec: [nbsp_init] is declared [extern] in [nbsp.h]
    and its body is not part of the header.  It zeroes [msg_is_ack],
    [msg_data], [words_to_be_acknowledged], [read_index] and [write_index],
    and sets [buffer_mask] to [buffer_size - 1] when [buffer_size > 0], to
    the all-ones value otherwise.  Every field is overwritten, so the
    result does not depend on the state passed in. *)
Definition nbsp_init (state : t_nbsp_state) (buffer_size_in_words : Z)
  : t_nbsp_state :=
  mk_state 0 0 0 0 0
           (if 0 <? buffer_size_in_words
            then buffer_size_in_words - 1
            else 0xFFFFFFFF).

(** ** The message parser of the normal variant *)

Definition nbsp_receive_msg (c : chanend) (state : t_nbsp_state)
  : result (chanend * t_nbsp_state) :=
  '(token, c) ← inct c;
  if Byte.eqb token NBSP_CT_DATA then
    let state := set_msg_is_ack 0 state in
    '(w, c) ← inuint c;
    Ok (c, set_msg_data w state)
  else
    Ok (c, set_msg_is_ack 1 state).

Definition nbsp_received_data (state : t_nbsp_state) : Z :=
  msg_data state.

(** ** Protocol variant UDDW: unidirectional, double word

    [CHECK_FOR_PROGRAMMING_ERRORS] is defined as 0, so the diagnostic
    blocks of the two sender functions are not compiled. *)

Definition nbsp_uddw_send (c : chanend) (state : t_nbsp_state)
    (buffer : list Z) (data1 data2 : Z)
  : result (chanend * t_nbsp_state * list Z * Z) :=
  if words_to_be_acknowledged state =? 0 then
    let c := outuint c data1 in
    let c := outuint c data2 in
    let state := set_words_to_be_acknowledged 2 state in
    Ok (c, state, buffer, 1)
  else
    let next_write_index :=
      Z.land (u32_add (write_index state) 2) (buffer_mask state) in
    if negb (next_write_index =? read_index state) then
      buffer ← array_set buffer (write_index state) data1;
      buffer ← array_set buffer (u32_add (write_index state) 1) data2;
      let state := set_write_index next_write_index state in
      Ok (c, state, buffer, 1)
    else
      Ok (c, state, buffer, 0).

Definition nbsp_uddw_handle_ack (c : chanend) (state : t_nbsp_state)
    (buffer : list Z)
  : result (chanend * t_nbsp_state) :=
  '(token, c) ← inct c;
  if negb (read_index state =? write_index state) then
    w1 ← array_get buffer (read_index state);
    let c := outuint c w1 in
    w2 ← array_get buffer (u32_add (read_index state) 1);
    let c := outuint c w2 in
    let state :=
      set_read_index
        (Z.land (u32_add (read_index state) 2) (buffer_mask state)) state in
    Ok (c, state)
  else
    Ok (c, set_words_to_be_acknowledged 0 state).

Section Platform.

(** The end-of-transfer control token of the platform headers. *)
Variable XS1_CT_END : byte.

(** The two [unsigned&] parameters are only written: they are returned. *)
Definition nbsp_uddw_receive (c : chanend) : result (chanend * Z * Z) :=
  '(data1, c) ← inuint c;
  '(data2, c) ← inuint c;
  let c := outct c XS1_CT_END in
  Ok (c, data1, data2).

End Platform.

(** ** Sequences of sender calls *)

Inductive call : Type :=
  | CallSend (data1 data2 : Z)   (* nbsp_uddw_send *)
  | CallAck.                     (* nbsp_uddw_handle_ack *)

Record endpoint : Type := mk_endpoint {
  ep_chan : chanend;
  ep_state : t_nbsp_state;
  ep_buffer : list Z
}.

(** One call on an endpoint; the value returned by [nbsp_uddw_send] is
    not kept. *)
Definition do_call (k : call) (e : endpoint) : result endpoint :=
  match k with
  | CallSend data1 data2 =>
      '(c, s, b, _) ←
        nbsp_uddw_send (ep_chan e) (ep_state e) (ep_buffer e) data1 data2;
      Ok (mk_endpoint c s b)
  | CallAck =>
      '(c, s) ← nbsp_uddw_handle_ack (ep_chan e) (ep_state e) (ep_buffer e);
      Ok (mk_endpoint c s (ep_buffer e))
  end.

(** The endpoint at every operation boundary: before the first call and
    after each call that completes.  The sequence stops at the first call
    that does not complete. *)
Fixpoint boundaries (ks : list call) (e : endpoint) : list endpoint :=
  e :: match ks with
       | [] => []
       | k :: ks' =>
           match do_call k e with
           | Ok e' => boundaries ks' e'
           | Fail _ => []
           end
       end.

(** The outcome of the whole sequence. *)
Fixpoint run (ks : list call) (e : endpoint) : result endpoint :=
  match ks with
  | [] => Ok e
  | k :: ks' => e' ← do_call k e; run ks' e'
  end.

(** Every [nbsp_uddw_handle_ack] of the sequence is called while
    [words_to_be_acknowledged] is not 0. *)
Fixpoint acks_expected (ks : list call) (e : endpoint) : bool :=
  match ks with
  | [] => true
  | k :: ks' =>
      match k with
      | CallAck => negb (words_to_be_acknowledged (ep_state e) =? 0)
      | CallSend _ _ => true
      end
      && match do_call k e with
         | Ok e' => acks_expected ks' e'
         | Fail _ => true
         end
  end.

(** ** Invariants of the sender *)

(** The acknowledgement count is 0 or 2, and it is not 0 while the buffer
    holds a pair. *)
Definition count_ok (e : endpoint) : Prop :=
  let s := ep_state e in
  (words_to_be_acknowledged s = 0 \/ words_to_be_acknowledged s = 2) /\
  (read_index s <> write_index s -> words_to_be_acknowledged s <> 0).

(** The ring of an endpoint whose buffer has [2^k] words. *)
Definition ring_ok (k : Z) (e : endpoint) : Prop :=
  let s := ep_state e in
  buffer_mask s = 2 ^ k - 1 /\
  Z.of_nat (length (ep_buffer e)) = 2 ^ k /\
  Z.even (read_index s) = true /\
  Z.even (write_index s) = true /\
  0 <= read_index s < 2 ^ k /\
  0 <= write_index s < 2 ^ k.

(** ** Views of a sequence of sender calls *)

(** The words that call [k] hands over for delivery: the pair of a
    [nbsp_uddw_send] that returns 1, nothing otherwise. *)
Definition taken_by (k : call) (e : endpoint) : list Z :=
  match k with
  | CallSend data1 data2 =>
      match nbsp_uddw_send (ep_chan e) (ep_state e) (ep_buffer e)
                           data1 data2 with
      | Ok (_, _, _, r) => if r =? 1 then [data1; data2] else []
      | Fail _ => []
      end
  | CallAck => []
  end.

(** The words accepted along a sequence of calls, in the order of the
    calls. *)
Fixpoint accepted (ks : list call) (e : endpoint) : list Z :=
  match ks with
  | [] => []
  | k :: ks' =>
      match do_call k e with
      | Ok e' => taken_by k e ++ accepted ks' e'
      | Fail _ => []
      end
  end.

(** The words between index [i] and index [stop], oldest first, read the
    way [nbsp_uddw_handle_ack] reads them: two cells, then the index moves
    on by 2 under the mask. *)
Fixpoint ring_walk (fuel : nat) (buffer : list Z) (mask i stop : Z)
  : list Z :=
  match fuel with
  | O => []
  | S fuel' =>
      if i =? stop then []
      else default 0 (buffer !! Z.to_nat i)
           :: default 0 (buffer !! Z.to_nat (u32_add i 1))
           :: ring_walk fuel' buffer mask (Z.land (u32_add i 2) mask) stop
  end.

(** The words an endpoint holds in its buffer, oldest first. *)
Definition ring_contents (e : endpoint) : list Z :=
  ring_walk (length (ep_buffer e)) (ep_buffer e)
            (buffer_mask (ep_state e))
            (read_index (ep_state e)) (write_index (ep_state e)).

Definition pair_words (ps : list (Z * Z)) : list Z :=
  flat_map (fun p => [fst p; snd p]) ps.

(** The ring of an endpoint with a buffer of [2^k] words holds the pairs
    [pend], oldest first, from [read_index] on. *)
Definition ring_holds (k : Z) (e : endpoint) (pend : list (Z * Z)) : Prop :=
  let s := ep_state e in
  write_index s = (read_index s + 2 * Z.of_nat (length pend)) mod 2 ^ k /\
  2 * Z.of_nat (length pend) < 2 ^ k /\
  forall (j : nat) (d1 d2 : Z),
    pend !! j = Some (d1, d2) ->
    ep_buffer e !! Z.to_nat ((read_index s + 2 * Z.of_nat j) mod 2 ^ k)
      = Some d1 /\
    ep_buffer e !! Z.to_nat ((read_index s + 2 * Z.of_nat j) mod 2 ^ k + 1)
      = Some d2.

(** [n] calls of [nbsp_uddw_handle_ack] in a row. *)
Definition acks (n : nat) : list call := replicate n CallAck.

(** One call of [nbsp_uddw_send] per pair. *)
Definition sends (ps : list (Z * Z)) : list call :=
  map (fun p => CallSend (fst p) (snd p)) ps.

(** The fields and the buffer length that the sender calls leave as they
    were in [e0]. *)
Definition same_frame (e0 e : endpoint) : Prop :=
  msg_is_ack (ep_state e) = msg_is_ack (ep_state e0) /\
  msg_data (ep_state e) = msg_data (ep_state e0) /\
  buffer_mask (ep_state e) = buffer_mask (ep_state e0) /\
  length (ep_buffer e) = length (ep_buffer e0).

(** Words emitted, plus two per control token still unread, minus the
    words awaiting acknowledgement. *)
Definition wire_balance (e : endpoint) : Z :=
  Z.of_nat (length (outgoing (ep_chan e)))
  + 2 * Z.of_nat (length (incoming (ep_chan e)))
  - words_to_be_acknowledged (ep_state e).

(** What is on the wire, followed by what the ring holds, is what was on
    the wire at the start followed by the words accepted since. *)
Definition fifo_ok (k : Z) (out0 : list item) (acc : list Z)
    (e : endpoint) : Prop :=
  ring_ok k e /\ count_ok e /\
  exists pend : list (Z * Z),
    ring_holds k e pend /\
    outgoing (ep_chan e) ++ map Word (pair_words pend)
    = out0 ++ map Word acc.

(** Since [e0] the endpoint has emitted whole pairs of words only and has
    read control tokens only. *)
Definition wire_ok (e0 e : endpoint) : Prop :=
  exists (ps : list (Z * Z)) (toks : list byte),
    outgoing (ep_chan e)
    = outgoing (ep_chan e0) ++ map Word (pair_words ps) /\
    incoming (ep_chan e0) = map Tok toks ++ incoming (ep_chan e).

(** * Properties *)

(** ** Helper facts *)

Lemma result_bind_ok {A B : Type} (k : A -> result B) (a : A) :
  Ok a ≫= k = k a.
Proof. reflexivity. Qed.

Lemma eqb_NBSP_CT_DATA (t : byte) :
  t <> NBSP_CT_DATA -> Byte.eqb t NBSP_CT_DATA = false.
Proof.
  intros Hne. destruct (Byte.eqb t NBSP_CT_DATA) eqn:E; [|reflexivity].
  apply Byte.byte_dec_bl in E. contradiction.
Qed.

Lemma array_set_ok (buffer : list Z) (i v : Z) :
  0 <= i < Z.of_nat (length buffer) ->
  array_set buffer i v = Ok (<[Z.to_nat i := v]> buffer).
Proof. intros H. unfold array_set. rewrite decide_True by exact H. reflexivity. Qed.

Lemma array_set_inv (buffer buffer' : list Z) (i v : Z) :
  array_set buffer i v = Ok buffer' ->
  0 <= i < Z.of_nat (length buffer) /\ buffer' = <[Z.to_nat i := v]> buffer.
Proof.
  unfold array_set. destruct (decide _) as [H|H]; [|discriminate].
  intros [= <-]. split; [exact H|reflexivity].
Qed.

Lemma array_get_ok (buffer : list Z) (i v : Z) :
  0 <= i -> buffer !! Z.to_nat i = Some v -> array_get buffer i = Ok v.
Proof.
  intros H Hl. unfold array_get. rewrite decide_True by exact H.
  rewrite Hl. reflexivity.
Qed.

Lemma array_get_inv (buffer : list Z) (i v : Z) :
  array_get buffer i = Ok v -> 0 <= i /\ buffer !! Z.to_nat i = Some v.
Proof.
  unfold array_get. destruct (decide _) as [H|H]; [|discriminate].
  destruct (buffer !! Z.to_nat i) eqn:E; [|discriminate].
  intros [= <-]. split; [exact H|reflexivity].
Qed.

(** ** The message parser *)

(** C4. [nbsp_receive_msg] takes exactly one control token off the channel
    and emits nothing.  When the token is [NBSP_CT_DATA] (0x5) it also
    takes the word that follows, stores it in [msg_data] and clears
    [msg_is_ack], and [nbsp_received_data] then returns that word.  For
    any other token it sets [msg_is_ack] to 1 and takes nothing else. *)
Theorem nbsp_receive_msg_spec (state : t_nbsp_state) (out : list item) :
  Byte.to_N NBSP_CT_DATA = 5%N /\
  (forall (w : Z) (rest : list item),
      exists state',
        nbsp_receive_msg
          (mk_chanend (Tok NBSP_CT_DATA :: Word w :: rest) out) state
        = Ok (mk_chanend rest out, state') /\
        msg_is_ack state' = 0 /\
        msg_data state' = w /\
        nbsp_received_data state' = w) /\
  (forall (t : byte) (rest : list item),
      t <> NBSP_CT_DATA ->
      exists state',
        nbsp_receive_msg (mk_chanend (Tok t :: rest) out) state
        = Ok (mk_chanend rest out, state') /\
        msg_is_ack state' = 1).
Proof.
  split; [reflexivity|]. split.
  - intros w rest. eexists. split; [reflexivity|]. repeat split.
  - intros t rest Hne. eexists.
    unfold nbsp_receive_msg, inct. cbn.
    rewrite (eqb_NBSP_CT_DATA t Hne). split; reflexivity.
Qed.

Lemma nbsp_receive_msg_spec_witness :
  exists state',
    nbsp_receive_msg
      (mk_chanend [Tok x01; Word 7] [Word 9]) (mk_state 0 42 2 0 2 3)
    = Ok (mk_chanend [Word 7] [Word 9], state') /\
    msg_is_ack state' = 1.
Proof.
  apply (proj2 (proj2 (nbsp_receive_msg_spec (mk_state 0 42 2 0 2 3) [Word 9]))).
  discriminate.
Defined.

(** C10. [nbsp_receive_msg] changes [msg_is_ack] and, for a data message,
    [msg_data], and nothing else: [words_to_be_acknowledged], [read_index],
    [write_index] and [buffer_mask] are the same after every call, and
    after a token other than [NBSP_CT_DATA] so is [msg_data]. *)
Theorem nbsp_receive_msg_frame (c c' : chanend) (state state' : t_nbsp_state) :
  nbsp_receive_msg c state = Ok (c', state') ->
  words_to_be_acknowledged state' = words_to_be_acknowledged state /\
  read_index state' = read_index state /\
  write_index state' = write_index state /\
  buffer_mask state' = buffer_mask state /\
  (forall (t : byte) (rest : list item),
      incoming c = Tok t :: rest -> t <> NBSP_CT_DATA ->
      msg_data state' = msg_data state /\ msg_is_ack state' = 1) /\
  (forall (rest : list item),
      incoming c = Tok NBSP_CT_DATA :: rest ->
      msg_is_ack state' = 0 /\
      exists rest', rest = Word (msg_data state') :: rest').
Proof.
  unfold nbsp_receive_msg, inct.
  destruct (incoming c) as [|[t|w] rest] eqn:Hin; cbn; try discriminate.
  destruct (Byte.eqb t NBSP_CT_DATA) eqn:E.
  - apply Byte.byte_dec_bl in E. subst t.
    unfold inuint; cbn.
    destruct rest as [|[t'|w] rest']; cbn; try discriminate.
    intros [= <- <-]. cbn.
    do 4 (split; [reflexivity|]). split.
    + intros t0 rest0 [= <- _] Hne. congruence.
    + intros rest0 [= <-]. split; [reflexivity|]. eexists. reflexivity.
  - intros [= <- <-]. cbn.
    do 4 (split; [reflexivity|]). split.
    + intros t0 rest0 _ _. split; reflexivity.
    + intros rest0 [= -> _]. discriminate.
Qed.

Lemma nbsp_receive_msg_frame_witness :
  nbsp_receive_msg (mk_chanend [Tok x01; Word 7] []) (mk_state 0 42 2 0 2 3)
  = Ok (mk_chanend [Word 7] [], mk_state 1 42 2 0 2 3) /\
  msg_data (mk_state 1 42 2 0 2 3) = msg_data (mk_state 0 42 2 0 2 3) /\
  msg_is_ack (mk_state 1 42 2 0 2 3) = 1.
Proof.
  split; [reflexivity|].
  apply (proj1 (proj2 (proj2 (proj2 (proj2
           (nbsp_receive_msg_frame
              (mk_chanend [Tok x01; Word 7] []) (mk_chanend [Word 7] [])
              (mk_state 0 42 2 0 2 3) (mk_state 1 42 2 0 2 3)
              eq_refl))))) x01 [Word 7]).
  - reflexivity.
  - discriminate.
Defined.

(** ** The UDDW receiver *)


(** ** The UDDW sender: single calls *)

Lemma u32_add_nonneg (a b : Z) : 0 <= u32_add a b.
Proof. unfold u32_add, u32_modulus. apply Z.mod_pos_bound. lia. Qed.

(** The second word of a pair never lands on the first. *)
Lemma u32_add_1_neq (i : Z) : u32_add i 1 <> i.
Proof.
  unfold u32_add, u32_modulus. intros H.
  pose proof (Z.div_mod (i + 1) (2 ^ 32) ltac:(lia)) as Hdm.
  rewrite H in Hdm. lia.
Qed.

Lemma outuint_twice (c : chanend) (w1 w2 : Z) :
  outuint (outuint c w1) w2
  = mk_chanend (incoming c) (outgoing c ++ [Word w1; Word w2]).
Proof. unfold outuint; cbn. rewrite <- app_assoc. reflexivity. Qed.

(** C1. With nothing awaiting acknowledgement, [nbsp_uddw_send] emits
    [data1] then [data2] and nothing before them, sets
    [words_to_be_acknowledged] to 2 and returns 1.  With something awaiting
    acknowledgement and [(write_index + 2) & buffer_mask] different from
    [read_index], it stores [data1] at [buffer[write_index]] and [data2] at
    [buffer[write_index + 1]] (both inside the array), sets [write_index]
    to [(write_index + 2) & buffer_mask], returns 1 and emits nothing. *)
Theorem nbsp_uddw_send_spec
    (c : chanend) (state : t_nbsp_state) (buffer : list Z) (data1 data2 : Z) :
  (words_to_be_acknowledged state = 0 ->
   nbsp_uddw_send c state buffer data1 data2
   = Ok (mk_chanend (incoming c) (outgoing c ++ [Word data1; Word data2]),
         mk_state (msg_is_ack state) (msg_data state) 2
                  (read_index state) (write_index state) (buffer_mask state),
         buffer, 1)) /\
  (words_to_be_acknowledged state <> 0 ->
   Z.land (u32_add (write_index state) 2) (buffer_mask state)
     <> read_index state ->
   0 <= write_index state < Z.of_nat (length buffer) ->
   u32_add (write_index state) 1 < Z.of_nat (length buffer) ->
   let buffer' :=
     <[Z.to_nat (u32_add (write_index state) 1) := data2]>
       (<[Z.to_nat (write_index state) := data1]> buffer) in
   nbsp_uddw_send c state buffer data1 data2
   = Ok (c,
         mk_state (msg_is_ack state) (msg_data state)
                  (words_to_be_acknowledged state) (read_index state)
                  (Z.land (u32_add (write_index state) 2) (buffer_mask state))
                  (buffer_mask state),
         buffer', 1) /\
   buffer' !! Z.to_nat (write_index state) = Some data1 /\
   buffer' !! Z.to_nat (u32_add (write_index state) 1) = Some data2 /\
   length buffer' = length buffer /\
   (forall j : nat,
       j <> Z.to_nat (write_index state) ->
       j <> Z.to_nat (u32_add (write_index state) 1) ->
       buffer' !! j = buffer !! j)).
Proof.
  split.
  - unfold nbsp_uddw_send. intros ->. cbn. rewrite outuint_twice. reflexivity.
  - intros Hbusy Hroom Hw Hw1 buffer'.
    pose proof (u32_add_nonneg (write_index state) 1) as Hw0.
    pose proof (u32_add_1_neq (write_index state)) as Hwne.
    split; [|split; [|split; [|split]]].
    + unfold nbsp_uddw_send.
      apply Z.eqb_neq in Hbusy, Hroom. rewrite Hbusy, Hroom. cbn.
      rewrite array_set_ok by exact Hw. rewrite result_bind_ok.
      rewrite array_set_ok by (rewrite length_insert; lia).
      reflexivity.
    + unfold buffer'. rewrite list_lookup_insert_ne by lia.
      apply list_lookup_insert_eq. lia.
    + unfold buffer'. apply list_lookup_insert_eq.
      rewrite length_insert. lia.
    + unfold buffer'. rewrite !length_insert. reflexivity.
    + intros j Hj Hj1. unfold buffer'.
      rewrite !list_lookup_insert_ne by congruence. reflexivity.
Qed.

Lemma nbsp_uddw_send_spec_witness :
  nbsp_uddw_send (mk_chanend [] []) (mk_state 0 0 0 0 0 3) [0; 0; 0; 0] 1 2
  = Ok (mk_chanend [] [Word 1; Word 2], mk_state 0 0 2 0 0 3, [0; 0; 0; 0], 1)
  /\
  nbsp_uddw_send (mk_chanend [] [Word 1; Word 2]) (mk_state 0 0 2 0 0 3)
                 [0; 0; 0; 0] 3 4
  = Ok (mk_chanend [] [Word 1; Word 2], mk_state 0 0 2 0 2 3, [3; 4; 0; 0], 1).
Proof.
  split.
  - apply (proj1 (nbsp_uddw_send_spec
                    (mk_chanend [] []) (mk_state 0 0 0 0 0 3) [0; 0; 0; 0] 1 2)).
    reflexivity.
  - apply (proj2 (nbsp_uddw_send_spec
                    (mk_chanend [] [Word 1; Word 2]) (mk_state 0 0 2 0 0 3)
                    [0; 0; 0; 0] 3 4)).
    + cbn. lia.
    + vm_compute. discriminate.
    + cbn. lia.
    + vm_compute. reflexivity.
Defined.

(** C5. [nbsp_uddw_send] returns 0 exactly when something awaits
    acknowledgement and [(write_index + 2) & buffer_mask] equals
    [read_index]; it then emits nothing and leaves the state and the
    buffer as they were. *)
Theorem nbsp_uddw_send_full
    (c : chanend) (state : t_nbsp_state) (buffer : list Z) (data1 data2 : Z) :
  (words_to_be_acknowledged state <> 0 /\
   Z.land (u32_add (write_index state) 2) (buffer_mask state)
     = read_index state ->
   nbsp_uddw_send c state buffer data1 data2 = Ok (c, state, buffer, 0)) /\
  (forall c' state' buffer' r,
      nbsp_uddw_send c state buffer data1 data2 = Ok (c', state', buffer', r) ->
      (r = 0 <->
       words_to_be_acknowledged state <> 0 /\
       Z.land (u32_add (write_index state) 2) (buffer_mask state)
         = read_index state) /\
      (r = 0 -> c' = c /\ state' = state /\ buffer' = buffer)).
Proof.
  unfold nbsp_uddw_send. split.
  - intros [Hbusy Hfull]. apply Z.eqb_neq in Hbusy. apply Z.eqb_eq in Hfull.
    rewrite Hbusy, Hfull. reflexivity.
  - intros c' state' buffer' r.
    destruct (words_to_be_acknowledged state =? 0) eqn:Hidle.
    + intros [= <- <- <- <-]. apply Z.eqb_eq in Hidle.
      split; [split|]; [discriminate| intros [H _]; contradiction | discriminate].
    + apply Z.eqb_neq in Hidle. cbn zeta.
      destruct (Z.land (u32_add (write_index state) 2) (buffer_mask state)
                =? read_index state) eqn:Hfull; cbn [negb].
      * apply Z.eqb_eq in Hfull. intros [= <- <- <- <-].
        split; [split; [intros _; split; assumption | reflexivity]|].
        intros _. repeat split.
      * apply Z.eqb_neq in Hfull.
        destruct (array_set buffer (write_index state) data1) as [b1|f];
          cbn; [|discriminate].
        destruct (array_set b1 (u32_add (write_index state) 1) data2)
          as [b2|f]; cbn; [|discriminate].
        intros [= <- <- <- <-].
        split; [split|]; [discriminate| intros [_ H]; contradiction | discriminate].
Qed.

Lemma nbsp_uddw_send_full_witness :
  nbsp_uddw_send (mk_chanend [] [Word 1; Word 2]) (mk_state 0 0 2 0 2 3)
                 [3; 4; 0; 0] 5 6
  = Ok (mk_chanend [] [Word 1; Word 2], mk_state 0 0 2 0 2 3, [3; 4; 0; 0], 0).
Proof.
  apply (proj1 (nbsp_uddw_send_full
                  (mk_chanend [] [Word 1; Word 2]) (mk_state 0 0 2 0 2 3)
                  [3; 4; 0; 0] 5 6)).
  split; [cbn; lia | vm_compute; reflexivity].
Defined.

(** ** The streaming scenario *)

(** C7. After [nbsp_init] with a buffer of 4 words: [nbsp_uddw_send] of
    (1, 2) returns 1 and emits 1 then 2; of (3, 4) returns 1, stores the
    pair and emits nothing; of (5, 6) returns 0; and the next
    [nbsp_uddw_handle_ack] emits 3 then 4 and leaves [read_index] equal to
    [write_index]. *)
Theorem uddw_streaming_scenario
    (state0 : t_nbsp_state) (b0 b1 b2 b3 : Z)
    (t : byte) (rest out : list item) :
  let c0 := mk_chanend (Tok t :: rest) out in
  let c1 := mk_chanend (Tok t :: rest) (out ++ [Word 1; Word 2]) in
  let c2 := mk_chanend rest ((out ++ [Word 1; Word 2]) ++ [Word 3; Word 4]) in
  let s0 := nbsp_init state0 4 in
  words_to_be_acknowledged s0 = 0 /\ read_index s0 = 0 /\
  write_index s0 = 0 /\ buffer_mask s0 = 3 /\
  nbsp_uddw_send c0 s0 [b0; b1; b2; b3] 1 2
  = Ok (c1, mk_state 0 0 2 0 0 3, [b0; b1; b2; b3], 1) /\
  nbsp_uddw_send c1 (mk_state 0 0 2 0 0 3) [b0; b1; b2; b3] 3 4
  = Ok (c1, mk_state 0 0 2 0 2 3, [3; 4; b2; b3], 1) /\
  nbsp_uddw_send c1 (mk_state 0 0 2 0 2 3) [3; 4; b2; b3] 5 6
  = Ok (c1, mk_state 0 0 2 0 2 3, [3; 4; b2; b3], 0) /\
  nbsp_uddw_handle_ack c1 (mk_state 0 0 2 0 2 3) [3; 4; b2; b3]
  = Ok (c2, mk_state 0 0 2 2 2 3) /\
  read_index (mk_state 0 0 2 2 2 3) = write_index (mk_state 0 0 2 2 2 3).
Proof.
  cbn zeta. do 4 (split; [reflexivity|]).
  split; [unfold nbsp_uddw_send; cbn; rewrite outuint_twice; reflexivity|].
  split; [reflexivity|]. split; [reflexivity|].
  split; [|reflexivity].
  unfold nbsp_uddw_handle_ack, inct; cbn.
  change (array_get [3; 4; b2; b3] 0) with (@Ok Z 3).
  change (array_get [3; 4; b2; b3] (u32_add 0 1)) with (@Ok Z 4).
  rewrite !result_bind_ok, outuint_twice. reflexivity.
Qed.

(** ** The UDDW sender: sequences of calls *)

(** What a completed [nbsp_uddw_send] did to the endpoint. *)
Lemma do_call_send_cases (data1 data2 : Z) (e e' : endpoint) :
  do_call (CallSend data1 data2) e = Ok e' ->
  let s := ep_state e in
  let next := Z.land (u32_add (write_index s) 2) (buffer_mask s) in
  (words_to_be_acknowledged s = 0 /\
   ep_state e' = set_words_to_be_acknowledged 2 s /\
   ep_buffer e' = ep_buffer e)
  \/
  (words_to_be_acknowledged s <> 0 /\ next <> read_index s /\
   ep_state e' = set_write_index next s /\
   length (ep_buffer e') = length (ep_buffer e))
  \/
  (words_to_be_acknowledged s <> 0 /\ next = read_index s /\
   ep_state e' = s /\ ep_buffer e' = ep_buffer e).
Proof.
  destruct e as [c s b]. unfold do_call, nbsp_uddw_send. cbn [ep_chan ep_state ep_buffer].
  destruct (words_to_be_acknowledged s =? 0) eqn:Hidle.
  - apply Z.eqb_eq in Hidle. cbn. intros [= <-]. left. auto.
  - apply Z.eqb_neq in Hidle. cbn zeta.
    destruct (Z.land (u32_add (write_index s) 2) (buffer_mask s)
              =? read_index s) eqn:Hfull; cbn [negb].
    + apply Z.eqb_eq in Hfull. cbn. intros [= <-]. right. right. auto.
    + apply Z.eqb_neq in Hfull.
      destruct (array_set b (write_index s) data1) as [b1|f] eqn:E1;
        cbn; [|discriminate].
      destruct (array_set b1 (u32_add (write_index s) 1) data2)
        as [b2|f] eqn:E2; cbn; [|discriminate].
      intros [= <-]. right. left. cbn.
      apply array_set_inv in E1 as [_ ->]. apply array_set_inv in E2 as [_ ->].
      rewrite !length_insert. auto.
Qed.

(** What a completed [nbsp_uddw_handle_ack] did to the endpoint. *)
Lemma do_call_ack_cases (e e' : endpoint) :
  do_call CallAck e = Ok e' ->
  let s := ep_state e in
  ep_buffer e' = ep_buffer e /\
  ((read_index s <> write_index s /\
    ep_state e' =
      set_read_index (Z.land (u32_add (read_index s) 2) (buffer_mask s)) s)
   \/
   (read_index s = write_index s /\
    ep_state e' = set_words_to_be_acknowledged 0 s)).
Proof.
  destruct e as [c s b]. unfold do_call, nbsp_uddw_handle_ack.
  cbn [ep_chan ep_state ep_buffer].
  destruct (inct c) as [[t c1]|f]; cbn; [|discriminate].
  destruct (read_index s =? write_index s) eqn:Hempty; cbn [negb].
  - apply Z.eqb_eq in Hempty. cbn. intros [= <-]. cbn. auto.
  - apply Z.eqb_neq in Hempty.
    destruct (array_get b (read_index s)) as [w1|f]; cbn; [|discriminate].
    destruct (array_get b (u32_add (read_index s) 1)) as [w2|f];
      cbn; [|discriminate].
    intros [= <-]. cbn. auto.
Qed.

Section Invariant.

Variable P : endpoint -> Prop.
Hypothesis P_preserved :
  forall (k : call) (e e' : endpoint), P e -> do_call k e = Ok e' -> P e'.

(** A property that every completed call preserves holds at every
    boundary. *)
Lemma boundaries_invariant (ks : list call) (e : endpoint) :
  P e -> Forall P (boundaries ks e).
Proof.
  revert e. induction ks as [|k ks IH]; intros e He; cbn.
  - constructor; [exact He|constructor].
  - constructor; [exact He|].
    destruct (do_call k e) as [e'|f] eqn:Hk; [|constructor].
    specialize (IH e' (P_preserved k e e' He Hk)).
    destruct ks; cbn in IH |- *; exact IH.
Qed.

End Invariant.

(** The outcome of a sequence that completes is its last boundary. *)
Lemma run_last_boundary (ks : list call) (e e' : endpoint) :
  run ks e = Ok e' -> last (boundaries ks e) = Some e'.
Proof.
  revert e. induction ks as [|k ks IH]; intros e; cbn.
  - intros [= <-]. reflexivity.
  - destruct (do_call k e) as [e1|f]; cbn; [|discriminate].
    intros Hrun. specialize (IH e1 Hrun).
    destruct (boundaries ks e1) eqn:Hb; [discriminate|exact IH].
Qed.

Lemma count_ok_init (c : chanend) (state0 : t_nbsp_state) (size : Z)
    (buffer : list Z) :
  count_ok (mk_endpoint c (nbsp_init state0 size) buffer).
Proof. split; cbn; [left; reflexivity | intros H; contradiction]. Qed.

Lemma count_ok_preserved (k : call) (e e' : endpoint) :
  count_ok e -> do_call k e = Ok e' -> count_ok e'.
Proof.
  unfold count_ok. intros [H02 Hbuf] Hk. destruct k as [d1 d2|].
  - apply do_call_send_cases in Hk.
    destruct Hk as [(Hidle & -> & _) | [(Hbusy & Hroom & -> & _)
                                       | (Hbusy & Hfull & -> & _)]]; cbn.
    + split; [right; reflexivity | intros _; discriminate].
    + split; [exact H02 | intros _; exact Hbusy].
    + split; assumption.
  - apply do_call_ack_cases in Hk. destruct Hk as [_ [[Hne ->] | [Heq ->]]]; cbn.
    + split; [exact H02 | intros _; exact (Hbuf Hne)].
    + split; [left; reflexivity | intros H; contradiction].
Qed.




(** C3. From an initialised state, along every sequence of
    [nbsp_uddw_send] and [nbsp_uddw_handle_ack] calls in which each
    [nbsp_uddw_handle_ack] is made while [words_to_be_acknowledged] is not
    0, [words_to_be_acknowledged] is 0 or 2 at every boundary. *)
Theorem uddw_count_is_0_or_2
    (state0 : t_nbsp_state) (size : Z) (c : chanend) (buffer : list Z)
    (ks : list call) :
  acks_expected ks (mk_endpoint c (nbsp_init state0 size) buffer) = true ->
  Forall (fun e => words_to_be_acknowledged (ep_state e) = 0 \/
                   words_to_be_acknowledged (ep_state e) = 2)
         (boundaries ks (mk_endpoint c (nbsp_init state0 size) buffer)).
Proof.
  intros _.
  eapply Forall_impl;
    [apply (boundaries_invariant count_ok count_ok_preserved), count_ok_init|].
  intros e [H _]. exact H.
Qed.

Lemma uddw_count_is_0_or_2_witness :
  Forall (fun e => words_to_be_acknowledged (ep_state e) = 0 \/
                   words_to_be_acknowledged (ep_state e) = 2)
         (boundaries [CallSend 1 2; CallSend 3 4; CallAck; CallAck]
            (mk_endpoint (mk_chanend [Tok x01; Tok x01] [])
                         (nbsp_init (mk_state 7 7 7 7 7 7) 4) [0; 0; 0; 0])).
Proof.
  apply (uddw_count_is_0_or_2 (mk_state 7 7 7 7 7 7) 4
           (mk_chanend [Tok x01; Tok x01] []) [0; 0; 0; 0]
           [CallSend 1 2; CallSend 3 4; CallAck; CallAck]).
  vm_compute. reflexivity.
Defined.

(** C6. From an initialised state, along every sequence of
    [nbsp_uddw_send] and [nbsp_uddw_handle_ack] calls, at every boundary a
    non-empty buffer ([read_index] different from [write_index]) comes
    with [words_to_be_acknowledged > 0]. *)
Theorem uddw_buffered_implies_unacknowledged
    (state0 : t_nbsp_state) (size : Z) (c : chanend) (buffer : list Z)
    (ks : list call) :
  Forall (fun e => read_index (ep_state e) <> write_index (ep_state e) ->
                   0 < words_to_be_acknowledged (ep_state e))
         (boundaries ks (mk_endpoint c (nbsp_init state0 size) buffer)).
Proof.
  eapply Forall_impl;
    [apply (boundaries_invariant count_ok count_ok_preserved), count_ok_init|].
  intros e [H02 Hbuf] Hne. specialize (Hbuf Hne). cbn in *. lia.
Qed.

Lemma uddw_buffered_implies_unacknowledged_witness :
  0 < words_to_be_acknowledged (mk_state 0 0 2 0 2 3).
Proof.
  apply (proj1 (Forall_forall _ _)
           (uddw_buffered_implies_unacknowledged
              (mk_state 7 7 7 7 7 7) 4 (mk_chanend [] []) [0; 0; 0; 0]
              [CallSend 1 2; CallSend 3 4])
           (mk_endpoint (mk_chanend [] [Word 1; Word 2])
                        (mk_state 0 0 2 0 2 3) [3; 4; 0; 0])).
  - do 2 apply list_elem_of_further. apply list_elem_of_here.
  - cbn. lia.
Defined.

(** ** Ring indices stay inside the buffer *)

Lemma u32_add_small (a b : Z) :
  0 <= a + b < 2 ^ 32 -> u32_add a b = a + b.
Proof. intros H. unfold u32_add, u32_modulus. apply Z.mod_small. exact H. Qed.

(** Parity survives the wrapping addition of 2 and any mask. *)
Lemma next_index_even (i mask : Z) :
  Z.even i = true -> Z.even (Z.land (u32_add i 2) mask) = true.
Proof.
  intros Hi. rewrite <- Z.negb_odd in Hi |- *.
  apply negb_true_iff in Hi. apply negb_true_iff.
  rewrite <- Z.bit0_odd, Z.land_spec.
  unfold u32_add, u32_modulus.
  rewrite Z.mod_pow2_bits_low by lia.
  rewrite Z.bit0_odd, Z.odd_add, Hi. reflexivity.
Qed.

(** Masking with [2^k - 1] keeps the index below [2^k]. *)
Lemma next_index_bound (i k : Z) :
  0 <= k -> 0 <= Z.land (u32_add i 2) (2 ^ k - 1) < 2 ^ k.
Proof.
  intros Hk. replace (2 ^ k - 1) with (Z.ones k)
    by (rewrite Z.ones_equiv; lia).
  rewrite Z.land_ones by exact Hk.
  apply Z.mod_pos_bound. apply Z.pow_pos_nonneg; lia.
Qed.

(** An even index below an even size leaves room for the second word. *)
Lemma even_index_pair (i k : Z) :
  1 <= k -> Z.even i = true -> 0 <= i < 2 ^ k -> i + 1 < 2 ^ k.
Proof.
  intros Hk Hi Hlt. apply Z.even_spec in Hi as [m ->].
  replace k with (Z.succ (k - 1)) in * by lia.
  rewrite Z.pow_succ_r in * by lia. lia.
Qed.

Lemma pow2_le_2_31 (k : Z) : 1 <= k < 32 -> 2 ^ k <= 2 ^ 31.
Proof. intros Hk. apply Z.pow_le_mono_r; lia. Qed.

Lemma ring_ok_init (k : Z) (c : chanend) (state0 : t_nbsp_state)
    (buffer : list Z) :
  1 <= k -> Z.of_nat (length buffer) = 2 ^ k ->
  ring_ok k (mk_endpoint c (nbsp_init state0 (2 ^ k)) buffer).
Proof.
  intros Hk Hlen. assert (0 < 2 ^ k) as Hpos by (apply Z.pow_pos_nonneg; lia).
  unfold ring_ok, nbsp_init; cbn.
  apply Z.ltb_lt in Hpos as Hb. rewrite Hb.
  repeat split; try reflexivity; try assumption; lia.
Qed.

Lemma ring_ok_preserved (k : Z) (c : call) (e e' : endpoint) :
  1 <= k -> ring_ok k e -> do_call c e = Ok e' -> ring_ok k e'.
Proof.
  unfold ring_ok.
  intros Hk (Hmask & Hlen & Hre & Hwe & Hr & Hw) Hc. destruct c as [d1 d2|].
  - apply do_call_send_cases in Hc.
    destruct Hc as [(_ & -> & ->) | [(_ & _ & -> & Hl) | (_ & _ & -> & ->)]];
      cbn; try (repeat split; assumption || lia).
    rewrite Hl, Hmask.
    pose proof (next_index_bound (write_index (ep_state e)) k ltac:(lia)).
    pose proof (next_index_even (write_index (ep_state e)) (2 ^ k - 1) Hwe).
    repeat split; assumption || lia.
  - apply do_call_ack_cases in Hc.
    destruct Hc as [-> [[_ ->] | [_ ->]]];
      cbn; try (repeat split; assumption || lia).
    rewrite Hmask.
    pose proof (next_index_bound (read_index (ep_state e)) k ltac:(lia)).
    pose proof (next_index_even (read_index (ep_state e)) (2 ^ k - 1) Hre).
    repeat split; assumption || lia.
Qed.

(** The second word of a pair is inside the buffer, without wrapping. *)
Lemma ring_ok_pair (k i : Z) :
  1 <= k < 32 -> Z.even i = true -> 0 <= i < 2 ^ k ->
  u32_add i 1 = i + 1 /\ i + 1 < 2 ^ k.
Proof.
  intros Hk Hi Hlt.
  pose proof (even_index_pair i k ltac:(lia) Hi Hlt).
  pose proof (pow2_le_2_31 k Hk).
  split; [|assumption]. apply u32_add_small. lia.
Qed.

Lemma array_set_in_bounds (buffer : list Z) (i v : Z) :
  0 <= i < Z.of_nat (length buffer) ->
  array_set buffer i v <> Fail ArrayBounds.
Proof. intros H. rewrite array_set_ok by exact H. discriminate. Qed.

Lemma array_get_in_bounds (buffer : list Z) (i : Z) :
  0 <= i < Z.of_nat (length buffer) -> exists v, array_get buffer i = Ok v.
Proof.
  intros H.
  destruct (lookup_lt_is_Some_2 buffer (Z.to_nat i) ltac:(lia)) as [v Hv].
  exists v. apply array_get_ok; [lia|exact Hv].
Qed.

(** With the ring in order, no call fails on an array bound. *)
Lemma ring_ok_no_bounds_fault (k : Z) (c : call) (e : endpoint) :
  1 <= k < 32 -> ring_ok k e -> do_call c e <> Fail ArrayBounds.
Proof.
  intros Hk (Hmask & Hlen & Hre & Hwe & Hr & Hw).
  destruct e as [ch s b]. cbn [ep_chan ep_state ep_buffer] in *.
  destruct c as [d1 d2|].
  - unfold do_call, nbsp_uddw_send. cbn [ep_chan ep_state ep_buffer].
    destruct (words_to_be_acknowledged s =? 0); [cbn; discriminate|].
    cbn zeta. destruct (negb _); [|cbn; discriminate].
    destruct (ring_ok_pair k (write_index s) Hk Hwe Hw) as [Hadd Hlt].
    rewrite array_set_ok by lia. rewrite result_bind_ok.
    rewrite array_set_ok by (rewrite length_insert; lia).
    cbn. discriminate.
  - unfold do_call, nbsp_uddw_handle_ack. cbn [ep_chan ep_state ep_buffer].
    destruct (inct ch) as [[t c1]|f] eqn:Hin; cbn.
    + destruct (negb _); [|cbn; discriminate].
      destruct (ring_ok_pair k (read_index s) Hk Hre Hr) as [Hadd Hlt].
      destruct (array_get_in_bounds b (read_index s) ltac:(lia)) as [w1 ->].
      rewrite result_bind_ok.
      destruct (array_get_in_bounds b (u32_add (read_index s) 1) ltac:(lia))
        as [w2 ->].
      cbn. discriminate.
    + unfold inct in Hin. destruct (incoming ch) as [|[t|w] rest];
        inversion Hin; discriminate.
Qed.

Lemma run_no_bounds_fault (k : Z) (ks : list call) (e : endpoint) :
  1 <= k < 32 -> ring_ok k e -> run ks e <> Fail ArrayBounds.
Proof.
  intros Hk. revert e. induction ks as [|c ks IH]; intros e He; cbn.
  - discriminate.
  - destruct (do_call c e) as [e'|f] eqn:Hc; cbn.
    + apply IH. apply (ring_ok_preserved k c e e'); [lia|exact He|exact Hc].
    + intros [= ->]. apply (ring_ok_no_bounds_fault k c e Hk He). exact Hc.
Qed.

(** C9. From a state initialised with a buffer size [2^k >= 2] and a
    buffer of that many words, along every sequence of [nbsp_uddw_send]
    and [nbsp_uddw_handle_ack] calls: at every boundary [read_index] and
    [write_index] are even and below the buffer size, so that the cells at
    [write_index], [write_index + 1], [read_index] and [read_index + 1]
    are inside the buffer, and no call fails on an array bound. *)
Theorem uddw_indices_in_bounds
    (k : Z) (state0 : t_nbsp_state) (c : chanend) (buffer : list Z)
    (ks : list call) :
  1 <= k < 32 ->
  Z.of_nat (length buffer) = 2 ^ k ->
  let e0 := mk_endpoint c (nbsp_init state0 (2 ^ k)) buffer in
  buffer_mask (ep_state e0) = 2 ^ k - 1 /\
  Forall (fun e =>
            let s := ep_state e in
            let n := Z.of_nat (length (ep_buffer e)) in
            n = 2 ^ k /\
            Z.even (read_index s) = true /\
            Z.even (write_index s) = true /\
            0 <= read_index s < n /\
            0 <= write_index s < n /\
            0 <= u32_add (read_index s) 1 < n /\
            0 <= u32_add (write_index s) 1 < n /\
            u32_add (read_index s) 1 = read_index s + 1 /\
            u32_add (write_index s) 1 = write_index s + 1)
         (boundaries ks e0) /\
  run ks e0 <> Fail ArrayBounds.
Proof.
  intros Hk Hlen e0.
  assert (ring_ok k e0) as H0 by (apply ring_ok_init; [lia|exact Hlen]).
  split; [apply H0|]. split.
  - eapply Forall_impl.
    + apply (boundaries_invariant (ring_ok k)); [|exact H0].
      intros c0 e e'. apply ring_ok_preserved. lia.
    + intros e (Hmask & Hl & Hre & Hwe & Hr & Hw). cbn zeta.
      destruct (ring_ok_pair k _ Hk Hre Hr) as [Hra Hrl].
      destruct (ring_ok_pair k _ Hk Hwe Hw) as [Hwa Hwl].
      rewrite Hra, Hwa, Hl. repeat split; assumption || lia.
  - apply (run_no_bounds_fault k); assumption.
Qed.

Lemma uddw_indices_in_bounds_witness :
  run [CallSend 1 2; CallSend 3 4; CallAck; CallSend 5 6; CallSend 7 8]
      (mk_endpoint (mk_chanend [Tok x01] [])
                   (nbsp_init (mk_state 7 7 7 7 7 7) (2 ^ 2)) [0; 0; 0; 0])
  <> Fail ArrayBounds.
Proof.
  apply (uddw_indices_in_bounds 2 (mk_state 7 7 7 7 7 7)
           (mk_chanend [Tok x01] []) [0; 0; 0; 0]
           [CallSend 1 2; CallSend 3 4; CallAck; CallSend 5 6; CallSend 7 8]).
  - lia.
  - reflexivity.
Defined.

(** * Further properties of the UDDW variant *)

(** ** What a completed call did, in full *)

Lemma do_call_send_full (data1 data2 : Z) (e e' : endpoint) :
  do_call (CallSend data1 data2) e = Ok e' ->
  let c := ep_chan e in
  let s := ep_state e in
  let b := ep_buffer e in
  let next := Z.land (u32_add (write_index s) 2) (buffer_mask s) in
  (words_to_be_acknowledged s = 0 /\
   e' = mk_endpoint
          (mk_chanend (incoming c) (outgoing c ++ [Word data1; Word data2]))
          (set_words_to_be_acknowledged 2 s) b /\
   taken_by (CallSend data1 data2) e = [data1; data2])
  \/
  (words_to_be_acknowledged s <> 0 /\ next <> read_index s /\
   0 <= write_index s < Z.of_nat (length b) /\
   u32_add (write_index s) 1 < Z.of_nat (length b) /\
   e' = mk_endpoint c (set_write_index next s)
          (<[Z.to_nat (u32_add (write_index s) 1) := data2]>
             (<[Z.to_nat (write_index s) := data1]> b)) /\
   taken_by (CallSend data1 data2) e = [data1; data2])
  \/
  (words_to_be_acknowledged s <> 0 /\ next = read_index s /\
   e' = e /\ taken_by (CallSend data1 data2) e = []).
Proof.
  destruct e as [c s b]. unfold taken_by, do_call, nbsp_uddw_send.
  cbn [ep_chan ep_state ep_buffer].
  destruct (words_to_be_acknowledged s =? 0) eqn:Hidle.
  - apply Z.eqb_eq in Hidle. cbn. rewrite outuint_twice.
    intros [= <-]. left. auto.
  - apply Z.eqb_neq in Hidle. cbn zeta.
    destruct (Z.land (u32_add (write_index s) 2) (buffer_mask s)
              =? read_index s) eqn:Hfull; cbn [negb].
    + apply Z.eqb_eq in Hfull. cbn. intros [= <-]. right. right. auto.
    + apply Z.eqb_neq in Hfull.
      destruct (array_set b (write_index s) data1) as [b1|f] eqn:E1;
        cbn; [|discriminate].
      destruct (array_set b1 (u32_add (write_index s) 1) data2)
        as [b2|f] eqn:E2; cbn; [|discriminate].
      intros [= <-]. right. left.
      apply array_set_inv in E1 as [Hw ->].
      apply array_set_inv in E2 as [Hw1 ->].
      rewrite length_insert in Hw1. repeat split; auto; lia.
Qed.

Lemma do_call_ack_full (e e' : endpoint) :
  do_call CallAck e = Ok e' ->
  let c := ep_chan e in
  let s := ep_state e in
  let b := ep_buffer e in
  exists (t : byte) (rest : list item),
    incoming c = Tok t :: rest /\
    ((read_index s <> write_index s /\
      exists w1 w2 : Z,
        0 <= read_index s /\
        b !! Z.to_nat (read_index s) = Some w1 /\
        b !! Z.to_nat (u32_add (read_index s) 1) = Some w2 /\
        e' = mk_endpoint
               (mk_chanend rest (outgoing c ++ [Word w1; Word w2]))
               (set_read_index
                  (Z.land (u32_add (read_index s) 2) (buffer_mask s)) s) b)
     \/
     (read_index s = write_index s /\
      e' = mk_endpoint (mk_chanend rest (outgoing c))
                       (set_words_to_be_acknowledged 0 s) b)).
Proof.
  destruct e as [c s b]. unfold do_call, nbsp_uddw_handle_ack, inct.
  cbn [ep_chan ep_state ep_buffer].
  destruct (incoming c) as [|[t|w] rest] eqn:Hin; cbn; try discriminate.
  intros H. exists t, rest. split; [reflexivity|]. revert H.
  destruct (read_index s =? write_index s) eqn:Hempty; cbn [negb].
  - apply Z.eqb_eq in Hempty. intros [= <-]. right. auto.
  - apply Z.eqb_neq in Hempty.
    destruct (array_get b (read_index s)) as [w1|f] eqn:E1;
      cbn; [|discriminate].
    destruct (array_get b (u32_add (read_index s) 1)) as [w2|f] eqn:E2;
      cbn; [|discriminate].
    rewrite outuint_twice. cbn. intros [= <-]. left. split; [exact Hempty|].
    apply array_get_inv in E1 as [Hpos H1].
    apply array_get_inv in E2 as [_ H2].
    exists w1, w2. auto.
Qed.

Section RunInvariant.

Variable P : endpoint -> Prop.
Hypothesis P_preserved :
  forall (k : call) (e e' : endpoint), P e -> do_call k e = Ok e' -> P e'.

(** A property that every completed call preserves holds after every
    sequence that completes. *)
Lemma run_invariant (ks : list call) (e e' : endpoint) :
  P e -> run ks e = Ok e' -> P e'.
Proof.
  revert e. induction ks as [|k ks IH]; intros e He; cbn.
  - intros [= <-]. exact He.
  - destruct (do_call k e) as [e1|f] eqn:Hk; cbn; [|discriminate].
    apply IH. exact (P_preserved k e e1 He Hk).
Qed.

End RunInvariant.

Lemma run_app (ks1 ks2 : list call) (e : endpoint) :
  run (ks1 ++ ks2) e = run ks1 e ≫= run ks2.
Proof.
  revert e. induction ks1 as [|k ks1 IH]; intros e; cbn; [reflexivity|].
  destruct (do_call k e) as [e1|f]; cbn; [apply IH|reflexivity].
Qed.

(** ** Index arithmetic under the mask *)

Lemma land_pow2_mask (x k : Z) : 0 <= k -> Z.land x (2 ^ k - 1) = x mod 2 ^ k.
Proof.
  intros Hk. replace (2 ^ k - 1) with (Z.ones k)
    by (rewrite Z.ones_equiv; lia).
  apply Z.land_ones. exact Hk.
Qed.

Lemma next_index_mod (i k : Z) :
  1 <= k < 32 -> 0 <= i < 2 ^ k ->
  Z.land (u32_add i 2) (2 ^ k - 1) = (i + 2) mod 2 ^ k.
Proof.
  intros Hk Hi. pose proof (pow2_le_2_31 k Hk).
  rewrite u32_add_small by lia. apply land_pow2_mask. lia.
Qed.

Lemma mod_shift_inj (a b c n : Z) :
  0 <= a < n -> 0 <= b < n -> (a + c) mod n = (b + c) mod n -> a = b.
Proof.
  intros Ha Hb H.
  assert ((a + c - c) mod n = (b + c - c) mod n) as H'
    by (rewrite (Zminus_mod (a + c)), (Zminus_mod (b + c)), H; reflexivity).
  replace (a + c - c) with a in H' by lia.
  replace (b + c - c) with b in H' by lia.
  rewrite !Z.mod_small in H' by lia. exact H'.
Qed.

(** ** The sender never touches the parser's fields, the mask or the size
    of the buffer *)

Lemma same_frame_preserved (e0 : endpoint) (k : call) (e e' : endpoint) :
  same_frame e0 e -> do_call k e = Ok e' -> same_frame e0 e'.
Proof.
  unfold same_frame. intros (H1 & H2 & H3 & H4) Hk. destruct k as [d1 d2|].
  - apply do_call_send_cases in Hk.
    destruct Hk as [(_ & -> & ->) | [(_ & _ & -> & ->) | (_ & _ & -> & ->)]];
      cbn; auto.
  - apply do_call_ack_cases in Hk.
    destruct Hk as [-> [[_ ->] | [_ ->]]]; cbn; auto.
Qed.

(** X1. Whatever the sequence of [nbsp_uddw_send] and
    [nbsp_uddw_handle_ack] calls and whatever the endpoint it starts from,
    [msg_is_ack], [msg_data] and [buffer_mask] are never written and the
    buffer keeps its length. *)
Theorem uddw_sender_frame (ks : list call) (e e' : endpoint) :
  run ks e = Ok e' ->
  msg_is_ack (ep_state e') = msg_is_ack (ep_state e) /\
  msg_data (ep_state e') = msg_data (ep_state e) /\
  buffer_mask (ep_state e') = buffer_mask (ep_state e) /\
  length (ep_buffer e') = length (ep_buffer e).
Proof.
  intros Hrun.
  apply (run_invariant (same_frame e) (same_frame_preserved e) ks e e');
    [|exact Hrun].
  repeat split.
Qed.

Lemma uddw_sender_frame_witness :
  msg_is_ack (mk_state 1 42 2 2 2 3) = 1 /\
  msg_data (mk_state 1 42 2 2 2 3) = 42 /\
  buffer_mask (mk_state 1 42 2 2 2 3) = 3 /\
  length [3; 4; 0; 0] = length [0; 0; 0; 0].
Proof.
  apply (uddw_sender_frame
           [CallSend 3 4; CallSend 5 6; CallAck]
           (mk_endpoint (mk_chanend [Tok x01] []) (mk_state 1 42 2 0 0 3)
                        [0; 0; 0; 0])
           (mk_endpoint (mk_chanend [] [Word 3; Word 4])
                        (mk_state 1 42 2 2 2 3) [3; 4; 0; 0])).
  vm_compute. reflexivity.
Defined.

(** ** Flow control: at most one pair awaits acknowledgement *)

Lemma wire_balance_call (k : call) (e e' : endpoint) :
  count_ok e -> do_call k e = Ok e' ->
  wire_balance e' <= wire_balance e /\
  ((k = CallAck -> words_to_be_acknowledged (ep_state e) <> 0) ->
   wire_balance e' = wire_balance e).
Proof.
  intros [H02 _] Hk. unfold wire_balance. destruct k as [d1 d2|].
  - apply do_call_send_full in Hk.
    destruct Hk as [(Hidle & -> & _) | [(_ & _ & _ & _ & -> & _)
                                       | (_ & _ & -> & _)]];
      cbn; rewrite ?length_app; cbn; lia.
  - apply do_call_ack_full in Hk.
    destruct Hk as (t & rest & Hin & [(_ & w1 & w2 & _ & _ & _ & ->)
                                     | (_ & ->)]);
      rewrite Hin; cbn; rewrite ?length_app; cbn.
    + lia.
    + split; [lia|]. intros Hg. specialize (Hg eq_refl). lia.
Qed.

Lemma wire_balance_run (ks : list call) (e e' : endpoint) :
  count_ok e -> run ks e = Ok e' ->
  wire_balance e' <= wire_balance e /\
  (acks_expected ks e = true -> wire_balance e' = wire_balance e).
Proof.
  revert e. induction ks as [|k ks IH]; intros e He; cbn.
  - intros [= <-]. split; [lia|reflexivity].
  - destruct (do_call k e) as [e1|f] eqn:Hk; cbn; [|discriminate].
    intros Hrun.
    destruct (wire_balance_call k e e1 He Hk) as [Hle Heq].
    destruct (IH e1 (count_ok_preserved k e e1 He Hk) Hrun) as [Hle' Heq'].
    split; [lia|]. intros [Hg Hrest]%andb_true_iff.
    rewrite Heq', Heq; [reflexivity| |exact Hrest].
    intros ->. apply negb_true_iff, Z.eqb_neq in Hg. exact Hg.
Qed.

(** X2. From an initialised state, after every sequence of sender calls
    the number of words emitted is at most twice the number of control
    tokens consumed plus [words_to_be_acknowledged], hence never more than
    two words ahead of the acknowledgements; when no
    [nbsp_uddw_handle_ack] was called with nothing awaiting
    acknowledgement, it is exactly that number. *)
Theorem uddw_flow_control
    (state0 : t_nbsp_state) (size : Z) (c : chanend) (buffer : list Z)
    (ks : list call) (e : endpoint) :
  run ks (mk_endpoint c (nbsp_init state0 size) buffer) = Ok e ->
  let emitted :=
    Z.of_nat (length (outgoing (ep_chan e)))
    - Z.of_nat (length (outgoing c)) in
  let acknowledged :=
    Z.of_nat (length (incoming c))
    - Z.of_nat (length (incoming (ep_chan e))) in
  emitted <= 2 * acknowledged + words_to_be_acknowledged (ep_state e) /\
  emitted <= 2 * acknowledged + 2 /\
  (acks_expected ks (mk_endpoint c (nbsp_init state0 size) buffer) = true ->
   emitted = 2 * acknowledged + words_to_be_acknowledged (ep_state e)).
Proof.
  intros Hrun emitted acknowledged.
  pose proof (count_ok_init c state0 size buffer) as H0.
  destruct (wire_balance_run ks _ e H0 Hrun) as [Hle Heq].
  assert (count_ok e) as [H02 _]
    by (apply (run_invariant count_ok count_ok_preserved ks _ e H0 Hrun)).
  unfold wire_balance in Hle, Heq. cbn in Hle, Heq.
  subst emitted acknowledged. cbn in H02.
  split; [lia|]. split; [lia|]. intros Hg. specialize (Heq Hg). lia.
Qed.

Lemma uddw_flow_control_witness :
  Z.of_nat (length [Word 1; Word 2; Word 3; Word 4]) - Z.of_nat (length (@nil item))
  = 2 * (Z.of_nat (length [Tok x01]) - Z.of_nat (length (@nil item)))
    + words_to_be_acknowledged (mk_state 0 0 2 2 2 3).
Proof.
  apply (uddw_flow_control (mk_state 7 7 7 7 7 7) 4
           (mk_chanend [Tok x01] []) [0; 0; 0; 0]
           [CallSend 1 2; CallSend 3 4; CallAck]
           (mk_endpoint (mk_chanend [] [Word 1; Word 2; Word 3; Word 4])
                        (mk_state 0 0 2 2 2 3) [3; 4; 0; 0])).
  - vm_compute. reflexivity.
  - vm_compute. reflexivity.
Defined.

(** ** Room after an acknowledgement *)

(** A busy sender whose ring is in order and not full stores the pair. *)
Lemma nbsp_uddw_send_buffers
    (k : Z) (e : endpoint) (data1 data2 : Z) :
  1 <= k < 32 -> ring_ok k e ->
  words_to_be_acknowledged (ep_state e) <> 0 ->
  (write_index (ep_state e) + 2) mod 2 ^ k <> read_index (ep_state e) ->
  nbsp_uddw_send (ep_chan e) (ep_state e) (ep_buffer e) data1 data2
  = Ok (ep_chan e,
        set_write_index ((write_index (ep_state e) + 2) mod 2 ^ k)
                        (ep_state e),
        <[Z.to_nat (write_index (ep_state e) + 1) := data2]>
          (<[Z.to_nat (write_index (ep_state e)) := data1]> (ep_buffer e)),
        1).
Proof.
  intros Hk (Hmask & Hlen & Hre & Hwe & Hr & Hw) Hbusy Hroom.
  destruct (ring_ok_pair k _ Hk Hwe Hw) as [Hadd Hlt].
  unfold nbsp_uddw_send. apply Z.eqb_neq in Hbusy. rewrite Hbusy.
  rewrite Hmask, (next_index_mod _ k Hk Hw), Hadd.
  apply Z.eqb_neq in Hroom. rewrite Hroom. cbn.
  rewrite array_set_ok by lia. rewrite result_bind_ok.
  rewrite array_set_ok by (rewrite length_insert; lia).
  reflexivity.
Qed.

Lemma sender_ok_run
    (k : Z) (state0 : t_nbsp_state) (c : chanend) (buffer : list Z)
    (ks : list call) (e : endpoint) :
  1 <= k < 32 -> Z.of_nat (length buffer) = 2 ^ k ->
  run ks (mk_endpoint c (nbsp_init state0 (2 ^ k)) buffer) = Ok e ->
  ring_ok k e /\ count_ok e.
Proof.
  intros Hk Hlen Hrun.
  apply (run_invariant (fun e => ring_ok k e /\ count_ok e)) in Hrun.
  - exact Hrun.
  - intros c0 e1 e2 [Hr Hc] Hcall. split.
    + apply (ring_ok_preserved k c0 e1 e2); [lia|exact Hr|exact Hcall].
    + apply (count_ok_preserved c0 e1 e2 Hc Hcall).
  - split; [apply ring_ok_init; [lia|exact Hlen] | apply count_ok_init].
Qed.

(** X3. With a buffer of [2^k] words, [1 <= k < 32], whenever a call of
    [nbsp_uddw_handle_ack] completes, the next [nbsp_uddw_send] returns 1:
    an acknowledgement always makes room for one more pair. *)
Theorem uddw_send_after_ack_accepted
    (k : Z) (state0 : t_nbsp_state) (c : chanend) (buffer : list Z)
    (ks : list call) (e e' : endpoint) (data1 data2 : Z) :
  1 <= k < 32 ->
  Z.of_nat (length buffer) = 2 ^ k ->
  run ks (mk_endpoint c (nbsp_init state0 (2 ^ k)) buffer) = Ok e ->
  do_call CallAck e = Ok e' ->
  exists c'' state'' buffer'',
    nbsp_uddw_send (ep_chan e') (ep_state e') (ep_buffer e') data1 data2
    = Ok (c'', state'', buffer'', 1).
Proof.
  intros Hk Hlen Hrun Hack.
  destruct (sender_ok_run k state0 c buffer ks e Hk Hlen Hrun) as [Hring Hcount].
  assert (ring_ok k e') as Hring'
    by (apply (ring_ok_preserved k CallAck e e'); [lia|exact Hring|exact Hack]).
  destruct Hring as (Hmask & _ & _ & _ & Hr & Hw).
  destruct Hcount as [_ Hbuf].
  apply do_call_ack_full in Hack.
  destruct Hack as (t & rest & _ & [(Hne & w1 & w2 & _ & _ & _ & He')
                                   | (_ & He')]).
  - eexists _, _, _.
    apply (nbsp_uddw_send_buffers k e' data1 data2 Hk Hring').
    + subst e'. cbn. exact (Hbuf Hne).
    + subst e'. cbn. rewrite Hmask, (next_index_mod _ k Hk Hr).
      intros Heq. apply Hne. symmetry.
      apply (mod_shift_inj _ _ 2 (2 ^ k)); [lia|lia|exact Heq].
  - subst e'. cbn. unfold nbsp_uddw_send. cbn. eexists _, _, _. reflexivity.
Qed.

Lemma uddw_send_after_ack_accepted_witness :
  exists c'' state'' buffer'',
    nbsp_uddw_send (mk_chanend [] [Word 1; Word 2; Word 3; Word 4])
                   (mk_state 0 0 2 2 2 3) [3; 4; 0; 0] 5 6
    = Ok (c'', state'', buffer'', 1).
Proof.
  apply (uddw_send_after_ack_accepted 2 (mk_state 7 7 7 7 7 7)
           (mk_chanend [Tok x01] []) [0; 0; 0; 0]
           [CallSend 1 2; CallSend 3 4]
           (mk_endpoint (mk_chanend [Tok x01] [Word 1; Word 2])
                        (mk_state 0 0 2 0 2 3) [3; 4; 0; 0])
           (mk_endpoint (mk_chanend [] [Word 1; Word 2; Word 3; Word 4])
                        (mk_state 0 0 2 2 2 3) [3; 4; 0; 0]) 5 6).
  - lia.
  - reflexivity.
  - vm_compute. reflexivity.
  - vm_compute. reflexivity.
Defined.

(** ** An endpoint without a buffer *)

Lemma u32_add_2_neq (i : Z) : u32_add i 2 <> i.
Proof.
  unfold u32_add, u32_modulus. intros H.
  pose proof (Z.div_mod (i + 2) (2 ^ 32) ltac:(lia)) as Hdm.
  rewrite H in Hdm. lia.
Qed.

Lemma land_all_ones (x : Z) : Z.land (u32_add x 2) 0xFFFFFFFF = u32_add x 2.
Proof.
  change 0xFFFFFFFF with (2 ^ 32 - 1). rewrite land_pow2_mask by lia.
  unfold u32_add, u32_modulus. apply Z.mod_mod. lia.
Qed.

(** X4. For an endpoint initialised without a buffer ([buffer_mask] all
    ones) whose ring is empty, a [nbsp_uddw_send] made while a pair awaits
    acknowledgement never returns 0: the full test cannot succeed, the
    call goes on to the store and, the array being empty, fails on its
    bound. *)
Theorem nbsp_uddw_send_without_buffer
    (c : chanend) (state : t_nbsp_state) (buffer : list Z)
    (data1 data2 : Z) :
  buffer_mask state = 0xFFFFFFFF ->
  words_to_be_acknowledged state <> 0 ->
  read_index state = write_index state ->
  (forall c' state' buffer' r,
      nbsp_uddw_send c state buffer data1 data2
      = Ok (c', state', buffer', r) -> r = 1) /\
  (buffer = [] ->
   nbsp_uddw_send c state buffer data1 data2 = Fail ArrayBounds).
Proof.
  intros Hmask Hbusy Hempty.
  assert ((Z.land (u32_add (write_index state) 2) (buffer_mask state)
           =? read_index state) = false) as Hroom.
  { apply Z.eqb_neq. rewrite Hmask, land_all_ones, Hempty.
    apply u32_add_2_neq. }
  apply Z.eqb_neq in Hbusy.
  unfold nbsp_uddw_send. rewrite Hbusy, Hroom. cbn [negb]. split.
  - intros c' state' buffer' r.
    destruct (array_set buffer (write_index state) data1) as [b1|f];
      cbn; [|discriminate].
    destruct (array_set b1 (u32_add (write_index state) 1) data2)
      as [b2|f]; cbn; [|discriminate].
    intros [= _ _ _ <-]. reflexivity.
  - intros ->. unfold array_set. cbn [length].
    rewrite decide_False by lia. reflexivity.
Qed.

Lemma nbsp_uddw_send_without_buffer_witness :
  nbsp_uddw_send (mk_chanend [] [Word 1; Word 2])
                 (set_words_to_be_acknowledged 2
                    (nbsp_init (mk_state 7 7 7 7 7 7) 0)) [] 3 4
  = Fail ArrayBounds.
Proof.
  apply (nbsp_uddw_send_without_buffer
           (mk_chanend [] [Word 1; Word 2])
           (set_words_to_be_acknowledged 2
              (nbsp_init (mk_state 7 7 7 7 7 7) 0)) [] 3 4).
  - reflexivity.
  - cbn. lia.
  - reflexivity.
  - reflexivity.
Defined.

(** ** One pair, there and back *)

(** X5. Round trip of one pair over a fresh link.  An idle sender with an
    empty ring sends [(data1, data2)]; [nbsp_uddw_receive], reading what
    the sender emitted, returns exactly [data1] and [data2] and emits one
    control token; [nbsp_uddw_handle_ack], reading what the receiver
    emitted, completes and leaves the sender in the very state it started
    from, with nothing left unread on either side. *)
Theorem uddw_round_trip
    (XS1_CT_END : byte) (state : t_nbsp_state) (buffer : list Z)
    (data1 data2 : Z) :
  words_to_be_acknowledged state = 0 ->
  read_index state = write_index state ->
  exists sender1 state1 receiver1,
    nbsp_uddw_send (mk_chanend [] []) state buffer data1 data2
    = Ok (sender1, state1, buffer, 1) /\
    nbsp_uddw_receive XS1_CT_END (mk_chanend (outgoing sender1) [])
    = Ok (receiver1, data1, data2) /\
    incoming receiver1 = [] /\
    nbsp_uddw_handle_ack
      (mk_chanend (outgoing receiver1) (outgoing sender1)) state1 buffer
    = Ok (mk_chanend [] (outgoing sender1), state).
Proof.
  intros Hidle Hempty. destruct state as [a d w r wi m]. cbn in *. subst.
  eexists _, _, _. split; [reflexivity|]. split; [reflexivity|].
  split; [reflexivity|].
  unfold nbsp_uddw_handle_ack, inct. cbn. rewrite Z.eqb_refl. reflexivity.
Qed.

Lemma uddw_round_trip_witness :
  exists sender1 state1 receiver1,
    nbsp_uddw_send (mk_chanend [] []) (mk_state 0 9 0 2 2 3) [3; 4; 0; 0] 5 6
    = Ok (sender1, state1, [3; 4; 0; 0], 1) /\
    nbsp_uddw_receive x01 (mk_chanend (outgoing sender1) [])
    = Ok (receiver1, 5, 6) /\
    incoming receiver1 = [] /\
    nbsp_uddw_handle_ack
      (mk_chanend (outgoing receiver1) (outgoing sender1)) state1 [3; 4; 0; 0]
    = Ok (mk_chanend [] (outgoing sender1), mk_state 0 9 0 2 2 3).
Proof.
  apply (uddw_round_trip x01 (mk_state 0 9 0 2 2 3) [3; 4; 0; 0] 5 6);
    reflexivity.
Defined.

(** ** What the ring holds *)

Lemma pow2_even_split (k : Z) : 1 <= k -> 2 ^ k = 2 * 2 ^ (k - 1).
Proof.
  intros Hk. replace k with (Z.succ (k - 1)) at 1 by lia.
  rewrite Z.pow_succ_r by lia. reflexivity.
Qed.

(** An even number reduced modulo [2^k] is even. *)
Lemma even_mod_pow2 (x k : Z) :
  1 <= k -> Z.even x = true -> Z.even (x mod 2 ^ k) = true.
Proof.
  intros Hk Hx. rewrite <- Z.negb_odd in Hx |- *.
  apply negb_true_iff in Hx. apply negb_true_iff.
  rewrite <- Z.bit0_odd, Z.mod_pow2_bits_low by lia.
  rewrite Z.bit0_odd. exact Hx.
Qed.

Lemma ring_slot_even (r j k : Z) :
  1 <= k -> Z.even r = true -> Z.even ((r + 2 * j) mod 2 ^ k) = true.
Proof.
  intros Hk Hr. apply even_mod_pow2; [exact Hk|].
  rewrite Z.even_add, Hr, Z.even_mul. reflexivity.
Qed.

Lemma pair_words_app (ps qs : list (Z * Z)) :
  pair_words (ps ++ qs) = pair_words ps ++ pair_words qs.
Proof. unfold pair_words. apply flat_map_app. Qed.

Lemma pair_words_length (ps : list (Z * Z)) :
  length (pair_words ps) = (2 * length ps)%nat.
Proof.
  unfold pair_words. induction ps as [|p ps IH]; cbn; [reflexivity|].
  rewrite IH. lia.
Qed.

(** The ring is empty exactly when it holds no pair. *)
Lemma ring_holds_nil_iff (k : Z) (e : endpoint) (pend : list (Z * Z)) :
  1 <= k -> ring_ok k e -> ring_holds k e pend ->
  read_index (ep_state e) = write_index (ep_state e) <-> pend = [].
Proof.
  intros Hk (_ & _ & _ & _ & Hr & _) (Hw & Hlt & _). split.
  - intros Heq. rewrite <- Heq in Hw.
    assert (2 * Z.of_nat (length pend) = 0) as H0.
    { apply (mod_shift_inj _ _ (read_index (ep_state e)) (2 ^ k)); [lia|lia|].
      rewrite (Z.add_comm _ (read_index (ep_state e))), <- Hw.
      cbn. rewrite Z.mod_small by lia. reflexivity. }
    destruct pend; [reflexivity|cbn in H0; lia].
  - intros ->. cbn in Hw. rewrite Z.add_0_r, Z.mod_small in Hw by lia.
    symmetry. exact Hw.
Qed.

(** The oldest pair sits at [read_index]. *)
Lemma ring_holds_head (k : Z) (e : endpoint) (d1 d2 : Z)
    (ps : list (Z * Z)) :
  1 <= k < 32 -> ring_ok k e -> ring_holds k e ((d1, d2) :: ps) ->
  read_index (ep_state e) <> write_index (ep_state e) /\
  ep_buffer e !! Z.to_nat (read_index (ep_state e)) = Some d1 /\
  ep_buffer e !! Z.to_nat (u32_add (read_index (ep_state e)) 1) = Some d2.
Proof.
  intros Hk Hring Hholds. split.
  - intros Heq.
    apply (ring_holds_nil_iff k e _ ltac:(lia) Hring Hholds) in Heq.
    discriminate.
  - destruct Hring as (_ & _ & Hre & _ & Hr & _).
    destruct Hholds as (_ & _ & Hcells).
    destruct (Hcells 0%nat d1 d2 eq_refl) as [H1 H2].
    cbn in H1, H2. rewrite Z.add_0_r, Z.mod_small in H1, H2 by lia.
    destruct (ring_ok_pair k _ Hk Hre Hr) as [-> _]. auto.
Qed.

(** Once [nbsp_uddw_handle_ack] has moved [read_index] on, the ring holds
    the remaining pairs. *)
Lemma ring_holds_tail (k : Z) (c c' : chanend) (s : t_nbsp_state)
    (b : list Z) (p : Z * Z) (ps : list (Z * Z)) :
  1 <= k < 32 ->
  ring_ok k (mk_endpoint c s b) ->
  ring_holds k (mk_endpoint c s b) (p :: ps) ->
  ring_holds k
    (mk_endpoint c'
       (set_read_index (Z.land (u32_add (read_index s) 2) (buffer_mask s)) s)
       b) ps.
Proof.
  intros Hk (Hmask & _ & _ & _ & Hr & _) (Hw & Hlt & Hcells).
  cbn in *. rewrite Hmask, (next_index_mod _ k Hk Hr).
  unfold ring_holds; cbn. split; [|split].
  - rewrite Hw, Z.add_mod_idemp_l by lia. f_equal. lia.
  - lia.
  - intros j d1 d2 Hj. specialize (Hcells (S j) d1 d2 Hj).
    rewrite Z.add_mod_idemp_l by lia.
    replace (read_index s + 2 + 2 * Z.of_nat j)
      with (read_index s + 2 * Z.of_nat (S j)) by lia.
    exact Hcells.
Qed.

(** Once [nbsp_uddw_send] has stored a pair, the ring holds it after the
    pairs it held. *)
Lemma ring_holds_snoc (k : Z) (c c' : chanend) (s : t_nbsp_state)
    (b : list Z) (pend : list (Z * Z)) (d1 d2 : Z) :
  1 <= k < 32 ->
  ring_ok k (mk_endpoint c s b) ->
  ring_holds k (mk_endpoint c s b) pend ->
  Z.land (u32_add (write_index s) 2) (buffer_mask s) <> read_index s ->
  ring_holds k
    (mk_endpoint c'
       (set_write_index
          (Z.land (u32_add (write_index s) 2) (buffer_mask s)) s)
       (<[Z.to_nat (u32_add (write_index s) 1) := d2]>
          (<[Z.to_nat (write_index s) := d1]> b)))
    (pend ++ [(d1, d2)]).
Proof.
  intros Hk (Hmask & Hlen & Hre & Hwe & Hr & Hwr) (Hw & Hlt & Hcells).
  cbn in *. rewrite Hmask, (next_index_mod _ k Hk Hwr).
  destruct (ring_ok_pair k _ Hk Hwe Hwr) as [-> Hw1].
  pose proof (pow2_even_split k ltac:(lia)) as Hn.
  intros Hroom. unfold ring_holds; cbn. rewrite length_app; cbn.
  assert ((write_index s + 2) mod 2 ^ k
          = (read_index s + 2 * Z.of_nat (length pend + 1)) mod 2 ^ k) as Hw'.
  { rewrite Hw, Z.add_mod_idemp_l by lia. f_equal. lia. }
  split; [exact Hw'|]. split.
  - assert (2 * Z.of_nat (length pend + 1) <> 2 ^ k); [|lia].
    intros Hfull. apply Hroom. rewrite Hw', Hfull.
    rewrite <- (Z.mul_1_l (2 ^ k)) at 1. rewrite Z.mod_add by lia.
    apply Z.mod_small. lia.
  - intros j x1 x2 Hj.
    destruct (decide (j < length pend)%nat) as [Hlt'|Hge].
    + rewrite lookup_app_l in Hj by exact Hlt'.
      destruct (Hcells j x1 x2 Hj) as [H1 H2].
      pose proof (ring_slot_even (read_index s) (Z.of_nat j) k
                    ltac:(lia) Hre) as Hev.
      pose proof (Z.mod_pos_bound (read_index s + 2 * Z.of_nat j) (2 ^ k)
                    ltac:(lia)) as Hb.
      assert ((read_index s + 2 * Z.of_nat j) mod 2 ^ k <> write_index s)
        as Hne.
      { rewrite Hw. intros Heq.
        rewrite !(Z.add_comm (read_index s)) in Heq.
        apply mod_shift_inj in Heq; lia. }
      apply Z.even_spec in Hev as [m Hm]. apply Z.even_spec in Hwe as [w Hwv].
      rewrite !list_lookup_insert_ne by lia. auto.
    + rewrite lookup_app_r in Hj by lia.
      destruct (j - length pend)%nat as [|j'] eqn:Hjj; [|destruct j'; discriminate].
      injection Hj as <- <-.
      assert (j = length pend) as -> by lia.
      rewrite <- Hw. split.
      * rewrite list_lookup_insert_ne by lia.
        apply list_lookup_insert_eq. lia.
      * apply list_lookup_insert_eq. rewrite length_insert. lia.
Qed.

(** Walking the ring from [read_index] reads the pairs it holds. *)
Lemma ring_walk_holds (k : Z) (b : list Z) (wi : Z) (pend : list (Z * Z)) :
  1 <= k < 32 ->
  forall (fuel : nat) (ri : Z),
    0 <= ri < 2 ^ k ->
    wi = (ri + 2 * Z.of_nat (length pend)) mod 2 ^ k ->
    2 * Z.of_nat (length pend) < 2 ^ k ->
    (forall (j : nat) (d1 d2 : Z),
        pend !! j = Some (d1, d2) ->
        b !! Z.to_nat ((ri + 2 * Z.of_nat j) mod 2 ^ k) = Some d1 /\
        b !! Z.to_nat ((ri + 2 * Z.of_nat j) mod 2 ^ k + 1) = Some d2) ->
    (length pend <= fuel)%nat ->
    ring_walk fuel b (2 ^ k - 1) ri wi = pair_words pend.
Proof.
  intros Hk. pose proof (pow2_le_2_31 k Hk) as Hn.
  induction pend as [|[x1 x2] ps IH]; intros fuel ri Hr Hw Hlt Hcells Hfuel.
  - cbn in Hw. rewrite Z.add_0_r, Z.mod_small in Hw by lia. subst wi.
    destruct fuel; cbn; [reflexivity|]. rewrite Z.eqb_refl. reflexivity.
  - destruct fuel as [|fuel]; [cbn in Hfuel; lia|]. cbn [ring_walk].
    assert (ri <> wi) as Hne.
    { intros Heq. rewrite <- Heq in Hw. cbn [length] in Hw, Hlt.
      assert ((0 + ri) mod 2 ^ k
              = (2 * Z.of_nat (S (length ps)) + ri) mod 2 ^ k) as H0.
      { rewrite Z.add_0_l, (Z.add_comm _ ri), <- Hw. apply Z.mod_small. lia. }
      apply mod_shift_inj in H0; lia. }
    apply Z.eqb_neq in Hne. rewrite Hne.
    destruct (Hcells 0%nat x1 x2 eq_refl) as [H1 H2].
    cbn in H1, H2. rewrite Z.add_0_r, Z.mod_small in H1, H2 by lia.
    rewrite (u32_add_small ri 1) by lia. rewrite H1, H2. cbn.
    do 2 f_equal.
    rewrite (u32_add_small ri 2) by lia.
    rewrite land_pow2_mask by lia.
    apply IH.
    + apply Z.mod_pos_bound. lia.
    + rewrite Hw, Z.add_mod_idemp_l by lia. f_equal. cbn [length]. lia.
    + cbn [length] in Hlt. lia.
    + intros j d1 d2 Hj. specialize (Hcells (S j) d1 d2 Hj).
      rewrite Z.add_mod_idemp_l by lia.
      replace (ri + 2 + 2 * Z.of_nat j)
        with (ri + 2 * Z.of_nat (S j)) by lia.
      exact Hcells.
    + cbn [length] in Hfuel. lia.
Qed.

Lemma ring_contents_holds (k : Z) (e : endpoint) (pend : list (Z * Z)) :
  1 <= k < 32 -> ring_ok k e -> ring_holds k e pend ->
  ring_contents e = pair_words pend.
Proof.
  intros Hk (Hmask & Hlen & _ & _ & Hr & _) (Hw & Hlt & Hcells).
  unfold ring_contents. rewrite Hmask.
  apply (ring_walk_holds k); try assumption. lia.
Qed.

(** ** Words leave in the order they were accepted *)

Lemma fifo_ok_call (k : Z) (out0 : list item) (acc : list Z)
    (c : call) (e e' : endpoint) :
  1 <= k < 32 ->
  fifo_ok k out0 acc e -> do_call c e = Ok e' ->
  fifo_ok k out0 (acc ++ taken_by c e) e'.
Proof.
  intros Hk (Hring & Hcount & pend & Hholds & Hout) Hcall.
  split; [apply (ring_ok_preserved k c e e'); [lia|exact Hring|exact Hcall]|].
  split; [apply (count_ok_preserved c e e' Hcount Hcall)|].
  destruct e as [ch s b]. destruct c as [d1 d2|].
  - apply do_call_send_full in Hcall. cbn [ep_chan ep_state ep_buffer] in Hcall.
    destruct Hcall as [(Hidle & -> & ->) | [(_ & Hroom & _ & _ & -> & ->)
                                           | (_ & _ & -> & ->)]].
    + assert (pend = []) as ->.
      { apply (ring_holds_nil_iff k _ _ ltac:(lia) Hring Hholds).
        destruct Hcount as [_ Hbuf]. cbn in Hbuf |- *.
        destruct (decide (read_index s = write_index s)) as [Heq|Hne];
          [exact Heq|]. contradiction (Hbuf Hne). }
      exists []. split; [exact Hholds|].
      cbn in Hout |- *. rewrite app_nil_r in Hout |- *.
      rewrite Hout, map_app, app_assoc. reflexivity.
    + exists (pend ++ [(d1, d2)]). split.
      * apply (ring_holds_snoc k ch ch s b pend d1 d2 Hk Hring Hholds Hroom).
      * cbn [ep_chan]. cbn [ep_chan] in Hout.
        rewrite pair_words_app, !map_app, app_assoc, Hout, app_assoc.
        reflexivity.
    + exists pend. rewrite app_nil_r. split; assumption.
  - apply do_call_ack_full in Hcall. cbn [ep_chan ep_state ep_buffer] in Hcall.
    destruct Hcall as (t & rest & _ & [(Hne & w1 & w2 & _ & H1 & H2 & ->)
                                      | (Heq & ->)]).
    + destruct pend as [|[x1 x2] ps].
      { exfalso. apply Hne.
        apply (ring_holds_nil_iff k _ _ ltac:(lia) Hring Hholds). reflexivity. }
      destruct (ring_holds_head k _ x1 x2 ps Hk Hring Hholds)
        as (_ & H1' & H2').
      cbn [ep_state ep_buffer] in H1', H2'.
      assert (w1 = x1) as -> by congruence.
      assert (w2 = x2) as -> by congruence.
      exists ps. split.
      * apply (ring_holds_tail k ch _ s b (x1, x2) ps Hk Hring Hholds).
      * cbn [ep_chan outgoing]. cbn [ep_chan] in Hout.
        rewrite app_nil_r, <- Hout, <- app_assoc. reflexivity.
    + exists pend. rewrite app_nil_r. split; [exact Hholds|exact Hout].
Qed.

Lemma fifo_ok_run (k : Z) (out0 : list item) (ks : list call) :
  1 <= k < 32 ->
  forall (acc : list Z) (e e' : endpoint),
    fifo_ok k out0 acc e -> run ks e = Ok e' ->
    fifo_ok k out0 (acc ++ accepted ks e) e'.
Proof.
  intros Hk. induction ks as [|c ks IH]; intros acc e e' He; cbn.
  - intros [= <-]. rewrite app_nil_r. exact He.
  - destruct (do_call c e) as [e1|f] eqn:Hc; cbn; [|discriminate].
    intros Hrun. rewrite app_assoc.
    apply (IH _ e1 e'); [|exact Hrun].
    apply (fifo_ok_call k out0 acc c e e1 Hk He Hc).
Qed.

Lemma fifo_ok_init (k : Z) (c : chanend) (state0 : t_nbsp_state)
    (buffer : list Z) :
  1 <= k < 32 -> Z.of_nat (length buffer) = 2 ^ k ->
  fifo_ok k (outgoing c) []
          (mk_endpoint c (nbsp_init state0 (2 ^ k)) buffer).
Proof.
  intros Hk Hlen.
  assert (0 < 2 ^ k) as Hpos by (apply Z.pow_pos_nonneg; lia).
  split; [apply ring_ok_init; [lia|exact Hlen]|].
  split; [apply count_ok_init|].
  exists []. split; [|reflexivity].
  unfold ring_holds; cbn. split; [|split].
  - rewrite Z.mod_small by lia. reflexivity.
  - lia.
  - intros j d1 d2 Hj. rewrite lookup_nil in Hj. discriminate.
Qed.

(** X6. With a buffer of [2^k] words, [1 <= k < 32], after every sequence
    of sender calls the words emitted since initialisation, followed by
    the words the ring still holds from [read_index] to [write_index],
    are exactly the words of the accepted pairs in the order in which
    they were accepted: nothing is lost, duplicated or reordered. *)
Theorem uddw_fifo
    (k : Z) (state0 : t_nbsp_state) (c : chanend) (buffer : list Z)
    (ks : list call) (e : endpoint) :
  1 <= k < 32 ->
  Z.of_nat (length buffer) = 2 ^ k ->
  run ks (mk_endpoint c (nbsp_init state0 (2 ^ k)) buffer) = Ok e ->
  outgoing (ep_chan e) ++ map Word (ring_contents e)
  = outgoing c
    ++ map Word
         (accepted ks (mk_endpoint c (nbsp_init state0 (2 ^ k)) buffer)).
Proof.
  intros Hk Hlen Hrun.
  destruct (fifo_ok_run k (outgoing c) ks Hk [] _ e
              (fifo_ok_init k c state0 buffer Hk Hlen) Hrun)
    as (Hring & _ & pend & Hholds & Hout).
  rewrite (ring_contents_holds k e pend Hk Hring Hholds). exact Hout.
Qed.

Lemma uddw_fifo_witness :
  [Word 1; Word 2; Word 3; Word 4] ++ map Word [5; 6]
  = [] ++ map Word [1; 2; 3; 4; 5; 6].
Proof.
  apply (uddw_fifo 3 (mk_state 7 7 7 7 7 7)
           (mk_chanend [Tok x01] []) [0; 0; 0; 0; 0; 0; 0; 0]
           [CallSend 1 2; CallSend 3 4; CallAck; CallSend 5 6]
           (mk_endpoint (mk_chanend [] [Word 1; Word 2; Word 3; Word 4])
                        (mk_state 0 0 2 2 4 7) [3; 4; 5; 6; 0; 0; 0; 0])).
  - lia.
  - reflexivity.
  - vm_compute. reflexivity.
Defined.

(** ** Acknowledgements drain the ring *)

Lemma do_call_ack_nonempty (e : endpoint) (t : byte) (rest : list item)
    (w1 w2 : Z) :
  incoming (ep_chan e) = Tok t :: rest ->
  read_index (ep_state e) <> write_index (ep_state e) ->
  0 <= read_index (ep_state e) ->
  ep_buffer e !! Z.to_nat (read_index (ep_state e)) = Some w1 ->
  ep_buffer e !! Z.to_nat (u32_add (read_index (ep_state e)) 1) = Some w2 ->
  do_call CallAck e
  = Ok (mk_endpoint
          (mk_chanend rest (outgoing (ep_chan e) ++ [Word w1; Word w2]))
          (set_read_index
             (Z.land (u32_add (read_index (ep_state e)) 2)
                     (buffer_mask (ep_state e)))
             (ep_state e))
          (ep_buffer e)).
Proof.
  intros Hin Hne Hpos H1 H2.
  unfold do_call, nbsp_uddw_handle_ack, inct. rewrite Hin. cbn.
  apply Z.eqb_neq in Hne. rewrite Hne. cbn.
  rewrite (array_get_ok _ _ _ Hpos H1), result_bind_ok.
  rewrite (array_get_ok _ _ w2 (u32_add_nonneg _ _) H2), result_bind_ok.
  rewrite outuint_twice. reflexivity.
Qed.

Lemma do_call_ack_empty (e : endpoint) (t : byte) (rest : list item) :
  incoming (ep_chan e) = Tok t :: rest ->
  read_index (ep_state e) = write_index (ep_state e) ->
  do_call CallAck e
  = Ok (mk_endpoint (mk_chanend rest (outgoing (ep_chan e)))
                    (set_words_to_be_acknowledged 0 (ep_state e))
                    (ep_buffer e)).
Proof.
  intros Hin Heq.
  unfold do_call, nbsp_uddw_handle_ack, inct. rewrite Hin. cbn.
  apply Z.eqb_eq in Heq. rewrite Heq. reflexivity.
Qed.

Lemma drain_run (k : Z) :
  1 <= k < 32 ->
  forall (pend : list (Z * Z)) (e : endpoint) (toks : list byte)
         (rest : list item),
    ring_ok k e -> ring_holds k e pend ->
    incoming (ep_chan e) = map Tok toks ++ rest ->
    length toks = S (length pend) ->
    exists e',
      run (acks (length toks)) e = Ok e' /\
      words_to_be_acknowledged (ep_state e') = 0 /\
      read_index (ep_state e') = write_index (ep_state e') /\
      outgoing (ep_chan e')
      = outgoing (ep_chan e) ++ map Word (pair_words pend) /\
      incoming (ep_chan e') = rest /\
      ep_buffer e' = ep_buffer e.
Proof.
  intros Hk. induction pend as [|[x1 x2] ps IH];
    intros e toks rest Hring Hholds Hin Hlen.
  - destruct toks as [|t [|t' toks]]; try discriminate. cbn in Hin.
    assert (read_index (ep_state e) = write_index (ep_state e)) as Heq
      by (apply (ring_holds_nil_iff k e [] ltac:(lia) Hring Hholds);
          reflexivity).
    eexists. unfold acks. cbn [length replicate run].
    rewrite (do_call_ack_empty e t rest Hin Heq), result_bind_ok.
    split; [reflexivity|]. cbn. rewrite app_nil_r. auto.
  - destruct toks as [|t toks]; [discriminate|]. cbn in Hin.
    injection Hlen as Hlen.
    destruct (ring_holds_head k e x1 x2 ps Hk Hring Hholds)
      as (Hne & H1 & H2).
    assert (0 <= read_index (ep_state e)) as Hpos
      by (destruct Hring as (_ & _ & _ & _ & Hr & _); lia).
    pose proof (do_call_ack_nonempty e t (map Tok toks ++ rest) x1 x2
                  Hin Hne Hpos H1 H2) as Hcall.
    set (e1 := mk_endpoint _ _ _) in Hcall.
    assert (ring_ok k e1) as Hring1
      by (apply (ring_ok_preserved k CallAck e e1);
          [lia|exact Hring|exact Hcall]).
    assert (ring_holds k e1 ps) as Hholds1.
    { destruct e as [ch s b].
      apply (ring_holds_tail k ch _ s b (x1, x2) ps Hk Hring Hholds). }
    destruct (IH e1 toks rest Hring1 Hholds1 eq_refl Hlen)
      as (e' & Hrun & Hw & Hidx & Hout & Hin' & Hbuf).
    exists e'. unfold acks in Hrun |- *. cbn [length replicate run].
    rewrite Hcall, result_bind_ok, Hrun.
    split; [reflexivity|]. split; [exact Hw|]. split; [exact Hidx|].
    split; [|split; [exact Hin'|exact Hbuf]].
    rewrite Hout. subst e1. cbn. rewrite <- app_assoc. reflexivity.
Qed.

(** X7. With a buffer of [2^k] words, [1 <= k < 32], after any sequence
    of sender calls: if the channel then delivers one control token per
    pair the ring holds and one more, that many calls of
    [nbsp_uddw_handle_ack] all complete and leave the sender with
    [words_to_be_acknowledged = 0] and an empty ring, every accepted word
    emitted in order, the tokens consumed and the buffer untouched. *)
Theorem uddw_drain
    (k : Z) (state0 : t_nbsp_state) (c : chanend) (buffer : list Z)
    (ks : list call) (e : endpoint) (toks : list byte) (rest : list item) :
  1 <= k < 32 ->
  Z.of_nat (length buffer) = 2 ^ k ->
  run ks (mk_endpoint c (nbsp_init state0 (2 ^ k)) buffer) = Ok e ->
  incoming (ep_chan e) = map Tok toks ++ rest ->
  (2 * length toks = length (ring_contents e) + 2)%nat ->
  exists e',
    run (acks (length toks)) e = Ok e' /\
    words_to_be_acknowledged (ep_state e') = 0 /\
    read_index (ep_state e') = write_index (ep_state e') /\
    outgoing (ep_chan e')
    = outgoing c
      ++ map Word
           (accepted ks (mk_endpoint c (nbsp_init state0 (2 ^ k)) buffer)) /\
    incoming (ep_chan e') = rest /\
    ep_buffer e' = ep_buffer e.
Proof.
  intros Hk Hlen Hrun Hin Htoks.
  destruct (fifo_ok_run k (outgoing c) ks Hk [] _ e
              (fifo_ok_init k c state0 buffer Hk Hlen) Hrun)
    as (Hring & _ & pend & Hholds & Hout).
  rewrite (ring_contents_holds k e pend Hk Hring Hholds),
    pair_words_length in Htoks.
  destruct (drain_run k Hk pend e toks rest Hring Hholds Hin ltac:(lia))
    as (e' & Hrun' & Hw & Hidx & Hout' & Hin' & Hbuf).
  exists e'. rewrite Hout', Hout. auto 10.
Qed.

Lemma uddw_drain_witness :
  exists e',
    run (acks 2)
        (mk_endpoint (mk_chanend [Tok x01; Tok x01] [Word 1; Word 2])
                     (mk_state 0 0 2 0 2 3) [3; 4; 0; 0])
    = Ok e' /\
    words_to_be_acknowledged (ep_state e') = 0 /\
    read_index (ep_state e') = write_index (ep_state e') /\
    outgoing (ep_chan e') = [] ++ map Word [1; 2; 3; 4] /\
    incoming (ep_chan e') = [] /\
    ep_buffer e' = [3; 4; 0; 0].
Proof.
  apply (uddw_drain 2 (mk_state 7 7 7 7 7 7)
           (mk_chanend [Tok x01; Tok x01] []) [0; 0; 0; 0]
           [CallSend 1 2; CallSend 3 4; CallSend 5 6]
           (mk_endpoint (mk_chanend [Tok x01; Tok x01] [Word 1; Word 2])
                        (mk_state 0 0 2 0 2 3) [3; 4; 0; 0])
           [x01; x01] []).
  - lia.
  - reflexivity.
  - vm_compute. reflexivity.
  - reflexivity.
  - vm_compute. reflexivity.
Defined.

(** ** How many pairs a sender takes without an acknowledgement *)

Lemma do_call_send_of (e : endpoint) (data1 data2 : Z)
    (c' : chanend) (s' : t_nbsp_state) (b' : list Z) (r : Z) :
  nbsp_uddw_send (ep_chan e) (ep_state e) (ep_buffer e) data1 data2
  = Ok (c', s', b', r) ->
  do_call (CallSend data1 data2) e = Ok (mk_endpoint c' s' b') /\
  taken_by (CallSend data1 data2) e
  = if r =? 1 then [data1; data2] else [].
Proof. intros H. unfold do_call, taken_by. rewrite H. split; reflexivity. Qed.

(** A busy sender with [read_index = 0] and [q] pairs stored takes
    [2^(k-1) - 1 - q] more pairs and refuses the others. *)
Lemma capacity_busy (k : Z) :
  1 <= k < 32 ->
  forall (ps : list (Z * Z)) (e : endpoint) (q : Z),
    ring_ok k e ->
    words_to_be_acknowledged (ep_state e) <> 0 ->
    read_index (ep_state e) = 0 ->
    write_index (ep_state e) = 2 * q ->
    0 <= q ->
    exists e',
      run (sends ps) e = Ok e' /\
      accepted (sends ps) e
      = pair_words (take (Z.to_nat (2 ^ (k - 1) - 1 - q)) ps).
Proof.
  intros Hk. pose proof (pow2_even_split k ltac:(lia)) as Hn.
  induction ps as [|[d1 d2] ps IH]; intros e q Hring Hbusy Hri Hwi Hq.
  - exists e. cbn. rewrite take_nil. split; reflexivity.
  - assert (2 * q < 2 ^ k) as Hlt
      by (destruct Hring as (_ & _ & _ & _ & _ & Hw); lia).
    cbn [sends map fst snd run accepted].
    destruct (decide (2 * q + 2 < 2 ^ k)) as [Hroom|Hfull].
    + pose proof (nbsp_uddw_send_buffers k e d1 d2 Hk Hring Hbusy) as Hsend.
      rewrite Hwi, Hri, Z.mod_small in Hsend by lia.
      specialize (Hsend ltac:(lia)).
      apply do_call_send_of in Hsend as [Hcall Htaken].
      set (e1 := mk_endpoint _ _ _) in Hcall.
      assert (ring_ok k e1) as Hring1
        by (apply (ring_ok_preserved k _ e e1 ltac:(lia) Hring Hcall)).
      destruct (IH e1 (q + 1) Hring1) as (e' & Hrun & Hacc);
        [exact Hbusy|exact Hri|cbn; lia|lia|].
      exists e'. rewrite Hcall, result_bind_ok, Htaken. cbn [Z.eqb Pos.eqb].
      fold (sends ps). rewrite Hrun, Hacc. split; [reflexivity|].
      replace (Z.to_nat (2 ^ (k - 1) - 1 - q))
        with (S (Z.to_nat (2 ^ (k - 1) - 1 - (q + 1)))) by lia.
      reflexivity.
    + assert (nbsp_uddw_send (ep_chan e) (ep_state e) (ep_buffer e) d1 d2
              = Ok (ep_chan e, ep_state e, ep_buffer e, 0)) as Hsend.
      { destruct Hring as (Hmask & _ & _ & _ & _ & Hw).
        unfold nbsp_uddw_send. apply Z.eqb_neq in Hbusy. rewrite Hbusy.
        rewrite Hmask, (next_index_mod _ k Hk Hw), Hwi, Hri.
        replace (2 * q + 2) with (0 + 1 * 2 ^ k) by lia.
        rewrite Z.mod_add, Z.mod_0_l by lia. reflexivity. }
      apply do_call_send_of in Hsend as [Hcall Htaken].
      replace (mk_endpoint (ep_chan e) (ep_state e) (ep_buffer e))
        with e in Hcall by (destruct e; reflexivity).
      destruct (IH e q Hring Hbusy Hri Hwi Hq) as (e' & Hrun & Hacc).
      exists e'. rewrite Hcall, result_bind_ok, Htaken. cbn [Z.eqb].
      fold (sends ps). rewrite Hrun, Hacc. split; [reflexivity|].
      replace (Z.to_nat (2 ^ (k - 1) - 1 - q)) with 0%nat by lia.
      rewrite !take_0. reflexivity.
Qed.

(** X8. With a buffer of [2^k] words, [1 <= k < 32], a freshly
    initialised sender that is given any number of pairs without an
    acknowledgement in between completes every call and accepts exactly
    the first [2^(k-1)] pairs: one goes on the wire, [2^(k-1) - 1] into
    the ring, and every later one is refused. *)
Theorem uddw_capacity
    (k : Z) (state0 : t_nbsp_state) (c : chanend) (buffer : list Z)
    (ps : list (Z * Z)) :
  1 <= k < 32 ->
  Z.of_nat (length buffer) = 2 ^ k ->
  exists e,
    run (sends ps) (mk_endpoint c (nbsp_init state0 (2 ^ k)) buffer) = Ok e /\
    accepted (sends ps) (mk_endpoint c (nbsp_init state0 (2 ^ k)) buffer)
    = pair_words (take (Z.to_nat (2 ^ (k - 1))) ps).
Proof.
  intros Hk Hlen. pose proof (pow2_even_split k ltac:(lia)) as Hn.
  assert (0 < 2 ^ (k - 1)) as Hpos by (apply Z.pow_pos_nonneg; lia).
  destruct ps as [|[d1 d2] ps].
  - eexists. cbn. rewrite take_nil. split; reflexivity.
  - set (e0 := mk_endpoint c (nbsp_init state0 (2 ^ k)) buffer).
    assert (ring_ok k e0) as Hring0 by (apply ring_ok_init; [lia|exact Hlen]).
    assert (nbsp_uddw_send (ep_chan e0) (ep_state e0) (ep_buffer e0) d1 d2
            = Ok (outuint (outuint c d1) d2,
                  set_words_to_be_acknowledged 2 (ep_state e0), buffer, 1))
      as Hsend by reflexivity.
    apply do_call_send_of in Hsend as [Hcall Htaken].
    set (e1 := mk_endpoint _ _ _) in Hcall.
    assert (ring_ok k e1) as Hring1
      by (apply (ring_ok_preserved k _ e0 e1 ltac:(lia) Hring0 Hcall)).
    destruct (capacity_busy k Hk ps e1 0 Hring1) as (e' & Hrun & Hacc);
      [cbn; lia|reflexivity|reflexivity|lia|].
    exists e'. cbn [sends map fst snd run accepted].
    rewrite Hcall, result_bind_ok, Htaken. cbn [Z.eqb Pos.eqb].
    fold (sends ps). rewrite Hrun, Hacc. split; [reflexivity|].
    replace (Z.to_nat (2 ^ (k - 1)))
      with (S (Z.to_nat (2 ^ (k - 1) - 1 - 0))) by lia.
    reflexivity.
Qed.

Lemma uddw_capacity_witness :
  exists e,
    run (sends [(1, 2); (3, 4); (5, 6)])
        (mk_endpoint (mk_chanend [] [])
                     (nbsp_init (mk_state 7 7 7 7 7 7) (2 ^ 2)) [0; 0; 0; 0])
    = Ok e /\
    accepted (sends [(1, 2); (3, 4); (5, 6)])
             (mk_endpoint (mk_chanend [] [])
                          (nbsp_init (mk_state 7 7 7 7 7 7) (2 ^ 2))
                          [0; 0; 0; 0])
    = pair_words (take (Z.to_nat (2 ^ (2 - 1))) [(1, 2); (3, 4); (5, 6)]).
Proof.
  apply (uddw_capacity 2 (mk_state 7 7 7 7 7 7) (mk_chanend [] [])
           [0; 0; 0; 0] [(1, 2); (3, 4); (5, 6)]).
  - lia.
  - reflexivity.
Defined.

(** ** What the sender puts on and takes off the channel *)

Lemma wire_ok_preserved (e0 : endpoint) (k : call) (e e' : endpoint) :
  wire_ok e0 e -> do_call k e = Ok e' -> wire_ok e0 e'.
Proof.
  intros (ps & toks & Hout & Hin) Hk. destruct k as [d1 d2|].
  - apply do_call_send_full in Hk.
    destruct Hk as [(_ & -> & _) | [(_ & _ & _ & _ & -> & _)
                                   | (_ & _ & -> & _)]].
    + exists (ps ++ [(d1, d2)]), toks. cbn. split; [|exact Hin].
      rewrite Hout, pair_words_app, map_app, <- app_assoc. reflexivity.
    + exists ps, toks. cbn. split; assumption.
    + exists ps, toks. split; assumption.
  - apply do_call_ack_full in Hk.
    destruct Hk as (t & rest & Hhead & [(_ & w1 & w2 & _ & _ & _ & ->)
                                       | (_ & ->)]).
    + exists (ps ++ [(w1, w2)]), (toks ++ [t]). cbn. split.
      * rewrite Hout, pair_words_app, map_app, <- app_assoc. reflexivity.
      * rewrite Hin, Hhead, map_app, <- app_assoc. reflexivity.
    + exists ps, (toks ++ [t]). cbn. split; [exact Hout|].
      rewrite Hin, Hhead, map_app, <- app_assoc. reflexivity.
Qed.

(** X9. Whatever the endpoint a sequence of sender calls starts from,
    what it adds to the channel is words only, never a control token, and
    a whole number of pairs; what it takes off the channel is control
    tokens only, from the front. *)
Theorem uddw_sender_wire (ks : list call) (e e' : endpoint) :
  run ks e = Ok e' ->
  exists (ps : list (Z * Z)) (toks : list byte),
    outgoing (ep_chan e')
    = outgoing (ep_chan e) ++ map Word (pair_words ps) /\
    incoming (ep_chan e) = map Tok toks ++ incoming (ep_chan e').
Proof.
  intros Hrun.
  apply (run_invariant (wire_ok e) (wire_ok_preserved e) ks e e');
    [|exact Hrun].
  exists [], []. cbn. rewrite app_nil_r. split; reflexivity.
Qed.

Lemma uddw_sender_wire_witness :
  exists (ps : list (Z * Z)) (toks : list byte),
    [Word 9; Word 1; Word 2; Word 3; Word 4]
    = [Word 9] ++ map Word (pair_words ps) /\
    [Tok x01; Word 8] = map Tok toks ++ [Word 8].
Proof.
  apply (uddw_sender_wire
           [CallSend 1 2; CallSend 3 4; CallAck]
           (mk_endpoint (mk_chanend [Tok x01; Word 8] [Word 9])
                        (mk_state 0 0 0 0 0 3) [0; 0; 0; 0])
           (mk_endpoint (mk_chanend [Word 8]
                           [Word 9; Word 1; Word 2; Word 3; Word 4])
                        (mk_state 0 0 2 2 2 3) [3; 4; 0; 0])).
  vm_compute. reflexivity.
Defined.

(** ** When a pair is refused *)

(** X10. With a buffer of [2^k] words, [1 <= k < 32], after any sequence
    of sender calls [nbsp_uddw_send] always completes, and it returns 0
    (changing nothing) exactly when a pair awaits acknowledgement and the
    ring holds [2^k - 2] words; in every other case it returns 1. *)
Theorem uddw_refused_iff_ring_full
    (k : Z) (state0 : t_nbsp_state) (c : chanend) (buffer : list Z)
    (ks : list call) (e : endpoint) (data1 data2 : Z) :
  1 <= k < 32 ->
  Z.of_nat (length buffer) = 2 ^ k ->
  run ks (mk_endpoint c (nbsp_init state0 (2 ^ k)) buffer) = Ok e ->
  (words_to_be_acknowledged (ep_state e) <> 0 /\
   Z.of_nat (length (ring_contents e)) = 2 ^ k - 2 ->
   nbsp_uddw_send (ep_chan e) (ep_state e) (ep_buffer e) data1 data2
   = Ok (ep_chan e, ep_state e, ep_buffer e, 0)) /\
  (~ (words_to_be_acknowledged (ep_state e) <> 0 /\
      Z.of_nat (length (ring_contents e)) = 2 ^ k - 2) ->
   exists c' state' buffer',
     nbsp_uddw_send (ep_chan e) (ep_state e) (ep_buffer e) data1 data2
     = Ok (c', state', buffer', 1)).
Proof.
  intros Hk Hlen Hrun.
  destruct (fifo_ok_run k (outgoing c) ks Hk [] _ e
              (fifo_ok_init k c state0 buffer Hk Hlen) Hrun)
    as (Hring & _ & pend & Hholds & _).
  rewrite (ring_contents_holds k e pend Hk Hring Hholds), pair_words_length.
  pose proof Hring as (Hmask & _ & _ & _ & Hr & Hw).
  destruct Hholds as (Hwi & Hlt & _).
  pose proof (pow2_even_split k ltac:(lia)) as Hn.
  assert ((write_index (ep_state e) + 2) mod 2 ^ k
          = (read_index (ep_state e)
             + (2 * Z.of_nat (length pend) + 2)) mod 2 ^ k) as Hnext.
  { rewrite Hwi, Z.add_mod_idemp_l by lia. f_equal. lia. }
  split.
  - intros [Hbusy Hfull].
    unfold nbsp_uddw_send. apply Z.eqb_neq in Hbusy. rewrite Hbusy.
    rewrite Hmask, (next_index_mod _ k Hk Hw), Hnext.
    replace (2 * Z.of_nat (length pend) + 2) with (1 * 2 ^ k) by lia.
    rewrite Z.mod_add, Z.mod_small, Z.eqb_refl by lia. reflexivity.
  - intros Hnot.
    destruct (decide (words_to_be_acknowledged (ep_state e) = 0))
      as [Hidle|Hbusy].
    + unfold nbsp_uddw_send. rewrite Hidle. cbn. eexists _, _, _. reflexivity.
    + eexists _, _, _.
      apply (nbsp_uddw_send_buffers k e data1 data2 Hk Hring Hbusy).
      rewrite Hnext. intros Heq.
      assert (2 * Z.of_nat (length pend) + 2 < 2 ^ k) as Hroom by lia.
      assert ((2 * Z.of_nat (length pend) + 2 + read_index (ep_state e))
                mod 2 ^ k
              = (0 + read_index (ep_state e)) mod 2 ^ k) as H0.
      { rewrite (Z.add_comm _ (read_index (ep_state e))), Heq, Z.add_0_l.
        symmetry. apply Z.mod_small. lia. }
      apply mod_shift_inj in H0; lia.
Qed.

Lemma uddw_refused_iff_ring_full_witness :
  nbsp_uddw_send (mk_chanend [] [Word 1; Word 2]) (mk_state 0 0 2 0 2 3)
                 [3; 4; 0; 0] 5 6
  = Ok (mk_chanend [] [Word 1; Word 2], mk_state 0 0 2 0 2 3,
        [3; 4; 0; 0], 0).
Proof.
  apply (uddw_refused_iff_ring_full 2 (mk_state 7 7 7 7 7 7)
           (mk_chanend [] []) [0; 0; 0; 0]
           [CallSend 1 2; CallSend 3 4]
           (mk_endpoint (mk_chanend [] [Word 1; Word 2])
                        (mk_state 0 0 2 0 2 3) [3; 4; 0; 0]) 5 6).
  - lia.
  - reflexivity.
  - vm_compute. reflexivity.
  - split; [cbn; lia | vm_compute; reflexivity].
Defined.
